(** * gql-validate: the nested-error scanner, the test runner and the exit codes

    A shallow embedding of the Go sources of the GraphQL validation tool:
    - package [cmd], the validate command (unnamed/part_001: [collectErrors],
      [findNestedErrors], [validateSingleQuery], [validateQueries],
      [runValidate]), the root command (unnamed/part_003: [Execute]) and the
      configuration (unnamed/part_004: [Config], [Validate]);
    - package [main] (main.go: [checkForErrors], [hasNestedErrors], the exit
      code loop of [main]).
    Line numbers are those of the source file of the function at hand.

    What the Go runtime and the Go standard library contribute is kept
    explicit:
    - a decoded JSON document is the dynamic value [encoding/json] stores in an
      [interface{}];
    - a [range] statement over a Go map visits the entries in an order chosen
      by the runtime, afresh for every statement; the choice is the section
      variable [rangeOrder];
    - [json.Unmarshal] and the [%v] verb of [fmt] are section variables. *)

From Stdlib Require Import List String Ascii Bool Arith ZArith Lia Permutation.
From Stdlib Require Import DecimalString PrimFloat.
Import ListNotations.

Local Open Scope string_scope.
Local Open Scope list_scope.
Local Open Scope nat_scope.

(** Go strings are byte sequences, as Rocq's [string]; [s +s+ t] is Go's
    [s + t]. *)
Local Infix "+s+" := String.append (at level 60, right associativity).

(* ================================================================== *)
(** ** Decoded JSON values *)

(** The dynamic types [json.Unmarshal] stores into an [interface{}]:
    [nil], [bool], [float64], [string], [[]interface{}] and
    [map[string]interface{}].  A map is kept as its list of entries; the
    position of an entry in the list has no meaning for the program, which
    reaches entries by key ([lookup]) or through a [range] statement. *)
Unset Elimination Schemes.
Inductive value : Type :=
| VNil
| VBool (b : bool)
| VFloat64 (f : float)
| VString (s : string)
| VSlice (items : list value)
| VMap (entries : list (string * value)).
Set Elimination Schemes.

(** Induction with the hypothesis available for every element of a slice and
    every value stored in a map. *)
Fixpoint value_ind (P : value -> Prop)
    (Hnil : P VNil)
    (Hbool : forall b, P (VBool b))
    (Hfloat : forall f, P (VFloat64 f))
    (Hstring : forall s, P (VString s))
    (Hslice : forall items, Forall P items -> P (VSlice items))
    (Hmap : forall entries, Forall (fun kv => P (snd kv)) entries -> P (VMap entries))
    (data : value) {struct data} : P data :=
  let rec := value_ind P Hnil Hbool Hfloat Hstring Hslice Hmap in
  match data with
  | VNil => Hnil
  | VBool b => Hbool b
  | VFloat64 f => Hfloat f
  | VString s => Hstring s
  | VSlice items =>
      Hslice items
        ((fix all (l : list value) : Forall P l :=
            match l with
            | [] => Forall_nil P
            | x :: l' => Forall_cons x (rec x) (all l')
            end) items)
  | VMap entries =>
      Hmap entries
        ((fix all (l : list (string * value)) : Forall (fun kv => P (snd kv)) l :=
            match l with
            | [] => Forall_nil _
            | kv :: l' => Forall_cons kv (rec (snd kv)) (all l')
            end) entries)
  end.

(** [v[key]] with the comma-ok form: [Some x] when the key is present. *)
Fixpoint lookup (key : string) (v : list (string * value)) : option value :=
  match v with
  | [] => None
  | (k, x) :: v' => if String.eqb k key then Some x else lookup key v'
  end.

(** [%d] of a slice index. *)
Definition fmt_d (i : nat) : string := NilZero.string_of_uint (Nat.to_uint i).

(** The [location] of a finding: the path, or [root] for the empty path. *)
Definition location (path : string) : string :=
  if String.eqb path "" then "root" else path.

(** The order every permitted [range] over a map of [n] entries can take:
    each position once. *)
Definition visits_each_once (order : list nat) (n : nat) : Prop :=
  Permutation order (seq 0 n).

(** The order of insertion is one of them. *)
Definition inOrder (tick n : nat) : list nat := seq 0 n.

(** The reverse order is another. *)
Definition reversed (tick n : nat) : list nat := rev (seq 0 n).

(* ================================================================== *)
(** ** Package cmd: the validate command *)

Module Cmd.

(** The memory [collectErrors] works on: the slice behind [errors *[]string]
    and the number of map [range] statements the run has started, which is
    where the runtime's next choice of an iteration order is read from. *)
Record state : Type := mkState {
  errors : list string;
  ranges : nat
}.

Definition appendMsg (st : state) (msg : string) : state :=
  mkState (errors st ++ [msg]) (ranges st).

Section Scanner.

(** [rangeOrder k n]: the positions, in visiting order, that the [k]-th map
    [range] statement of the run takes over a map of [n] entries. *)
Variable rangeOrder : nat -> nat -> list nat.

(** [fmt.Sprintf("%v", e)] for a decoded value [e]. *)
Variable fmtV : value -> string.

(** One turn of [for i, e := range errArray] (lines 302-312). *)
Definition errArrayTurn (e : value) (i : nat) (st : state) (path : string)
    : state :=
  match e with
  | VMap errMap =>
      match lookup "message" errMap with
      | Some (VString msg) =>
          appendMsg st ("Error at " +s+ location path +s+ "[" +s+ fmt_d i
                        +s+ "]: " +s+ msg)
      | _ =>
          appendMsg st ("Error at " +s+ path +s+ "[" +s+ fmt_d i
                        +s+ "]: " +s+ fmtV e)
      end
  | _ => st
  end.

(** The loop over [errArray], from index [i] on. *)
Fixpoint rangeErrArray (errArray : list value) (i : nat) (st : state)
    (path : string) : state :=
  match errArray with
  | [] => st
  | e :: rest => rangeErrArray rest (S i) (errArrayTurn e i st path) path
  end.

(** The check for the [errors] key (lines 299-315). *)
Definition checkErrorsKey (v : list (string * value)) (st : state)
    (path : string) : state :=
  match lookup "errors" v with
  | Some (VSlice errArray) =>
      if 0 <? List.length errArray then rangeErrArray errArray 0 st path else st
  | _ => st
  end.

(** The check for the [error] key (lines 318-337). *)
Definition checkErrorKey (v : list (string * value)) (st : state)
    (path : string) : state :=
  match lookup "error" v with
  | Some (VString errStr) =>
      if negb (String.eqb errStr "")
      then appendMsg st ("Error at " +s+ location path +s+ ": " +s+ errStr)
      else st
  | Some (VMap errStr) =>
      match lookup "message" errStr with
      | Some (VString msg) =>
          appendMsg st ("Error at " +s+ location path +s+ ": " +s+ msg)
      | _ => st
      end
  | _ => st
  end.

(** [newPath] of the map loop (lines 341-344) and of the slice loop
    (lines 351-354). *)
Definition keyPath (path key : string) : string :=
  if negb (String.eqb path "") then path +s+ "." +s+ key else key.

Definition indexPath (path : string) (i : nat) : string :=
  if String.eqb path "" then "[" +s+ fmt_d i +s+ "]"
  else path +s+ "[" +s+ fmt_d i +s+ "]".

(** [collectErrors] (lines 295-358).  The map loop asks the runtime for an
    order and visits the entries at these positions; the slice loop goes by
    index. *)
Fixpoint collectErrors (data : value) (st : state) (path : string)
    {struct data} : state :=
  match data with
  | VMap v =>
      let st := checkErrorsKey v st path in
      let st := checkErrorKey v st path in
      (fix range (order : list nat) (st : state) {struct order} : state :=
         match order with
         | [] => st
         | pos :: order' =>
             range order'
               ((fix entry (l : list (string * value)) (n : nat) {struct l}
                   : state :=
                   match l with
                   | [] => st
                   | (key, value) :: l' =>
                       match n with
                       | O => collectErrors value st (keyPath path key)
                       | S n' => entry l' n'
                       end
                   end) v pos)
         end) (rangeOrder (ranges st) (List.length v))
              (mkState (errors st) (S (ranges st)))
  | VSlice v =>
      (fix range (l : list value) (i : nat) (st : state) {struct l} : state :=
         match l with
         | [] => st
         | item :: l' => range l' (S i) (collectErrors item st (indexPath path i))
         end) v 0 st
  | _ => st
  end.

(** [findNestedErrors] (lines 278-292); [Unmarshal] is [json.Unmarshal] into
    an [interface{}], [None] when it returns an error.  A call starts its own
    count of map loops. *)
Definition findNestedErrors (Unmarshal : string -> option value)
    (data : string) : list string :=
  if String.length data =? 0 then []
  else
    match Unmarshal data with
    | None => []
    | Some result => errors (collectErrors result (mkState [] 0) "")
    end.

End Scanner.

(** *** The test runner *)

(** Go's [int] and [int64]: 64 bits, two's complement. *)
Definition wrapInt (z : Z) : Z := ((z + 2 ^ 63) mod 2 ^ 64 - 2 ^ 63)%Z.
Definition maxInt : Z := (2 ^ 63 - 1)%Z.

(** [x++] *)
Definition incr (x : Z) : Z := wrapInt (x + 1).

(** [len(s)] as an [int]. *)
Definition len {A : Type} (s : list A) : Z := Z.of_nat (List.length s).

(** [len(b)] of a byte slice. *)
Definition lenBytes (b : string) : Z := Z.of_nat (String.length b).

(** [%d] of an [int]. *)
Definition fmt_dZ (z : Z) : string := NilZero.string_of_int (Z.to_int z).

(** [strings.HasSuffix] and [strings.TrimSuffix]. *)
Definition HasSuffix (s suffix : string) : bool :=
  (String.length suffix <=? String.length s) &&
  String.eqb
    (substring (String.length s - String.length suffix) (String.length suffix) s)
    suffix.

Definition TrimSuffix (s suffix : string) : string :=
  if HasSuffix s suffix
  then substring 0 (String.length s - String.length suffix) s
  else s.

(** [TestResult] and [ValidationSummary] (lines 25-39). *)
Module TestResult.
Record t : Type := mk {
  Name : string;
  Path : string;
  Passed : bool;
  Errors : list string;
  Duration : Z
}.
End TestResult.

Module ValidationSummary.
Record t : Type := mk {
  Total : Z;
  Passed : Z;
  Failed : Z;
  Results : list TestResult.t
}.
End ValidationSummary.

(** What [validateSingleQuery] uses of GraphJin's [core.Result]. *)
Record Error : Type := mkError { Message : string }.

Module Result.
Record t : Type := mk {
  Errors : list Error;
  Data : string
}.
End Result.

(** What one call of [validateSingleQuery] observes of the outside: the file
    system, the engine, the clock and the map orders of the runtime.  A
    failed call is given by the text [%v] prints for its error. *)
Record World : Type := mkWorld {
  os_ReadFile : string -> string + string;
  os_Stat : string -> bool;
  gj_GraphQL : string -> string -> option Result.t * option string;
  sinceStart : Z;
  mapOrder : nat -> nat -> list nat
}.

Section Runner.

Variable fmtV : value -> string.
Variable Unmarshal : string -> option value.
Variable filepath_Base : string -> string.

(** [append(result.Errors, ...)] and the assignments to the fields of
    [result]. *)
Definition addError (result : TestResult.t) (msg : string) : TestResult.t :=
  TestResult.mk (TestResult.Name result) (TestResult.Path result)
    (TestResult.Passed result) (TestResult.Errors result ++ [msg])
    (TestResult.Duration result).

Definition addErrors (result : TestResult.t) (msgs : list string) : TestResult.t :=
  TestResult.mk (TestResult.Name result) (TestResult.Path result)
    (TestResult.Passed result) (TestResult.Errors result ++ msgs)
    (TestResult.Duration result).

Definition setDuration (result : TestResult.t) (ms : Z) : TestResult.t :=
  TestResult.mk (TestResult.Name result) (TestResult.Path result)
    (TestResult.Passed result) (TestResult.Errors result) ms.

Definition setPassed (result : TestResult.t) (b : bool) : TestResult.t :=
  TestResult.mk (TestResult.Name result) (TestResult.Path result)
    b (TestResult.Errors result) (TestResult.Duration result).

(** The three checks that follow the call of the engine (lines 249-267):
    the execution error, the errors of the response, and the errors nested
    in the data of the response. *)
Definition checkExecution (err : option string) (result : TestResult.t)
    : TestResult.t :=
  match err with
  | Some err => addError result ("Execution error: " +s+ err)
  | None => result
  end.

Definition checkResponse (res : option Result.t) (result : TestResult.t)
    : TestResult.t :=
  match res with
  | Some res =>
      if (0 <? len (Result.Errors res))%Z
      then addErrors result (map Message (Result.Errors res))
      else result
  | None => result
  end.

Definition checkData (w : World) (res : option Result.t) (result : TestResult.t)
    : TestResult.t :=
  match res with
  | Some res =>
      if (0 <? lenBytes (Result.Data res))%Z
      then
        let nestedErrors :=
          findNestedErrors (mapOrder w) fmtV Unmarshal (Result.Data res) in
        if (0 <? len nestedErrors)%Z
        then addErrors result nestedErrors
        else result
      else result
  | None => result
  end.

(** The verdict (lines 270-272). *)
Definition verdict (result : TestResult.t) : TestResult.t :=
  if (len (TestResult.Errors result) =? 0)%Z
  then setPassed result true
  else result.

(** [validateSingleQuery] (lines 205-275).  Printing under [verbose] is left
    out. *)
Definition validateSingleQuery (w : World) (queryPath : string) : TestResult.t :=
  let result := TestResult.mk (filepath_Base queryPath) queryPath false [] 0 in
  match os_ReadFile w queryPath with
  | inr err =>
      let result := addError result ("Failed to read query file: " +s+ err) in
      setDuration result (sinceStart w)
  | inl query =>
      let jsonFile := TrimSuffix queryPath ".graphql" +s+ ".json" in
      let variables :=
        if os_Stat w jsonFile then os_ReadFile w jsonFile else inl "{}" in
      match variables with
      | inr err =>
          let result := addError result ("Failed to read variables file: " +s+ err) in
          setDuration result (sinceStart w)
      | inl variables =>
          let (res, err) := gj_GraphQL w query variables in
          let result := setDuration result (sinceStart w) in
          let result := checkExecution err result in
          let result := checkResponse res result in
          let result := checkData w res result in
          verdict result
      end
  end.

(** The loop of [validateQueries] (lines 188-200); the [k]-th call of
    [validateSingleQuery] observes [world k]. *)
Fixpoint rangeQueryFiles (failFast : bool) (world : nat -> World) (k : nat)
    (queryFiles : list string) (summary : ValidationSummary.t)
    : ValidationSummary.t :=
  match queryFiles with
  | [] => summary
  | qf :: rest =>
      let result := validateSingleQuery (world k) qf in
      let summary :=
        ValidationSummary.mk (ValidationSummary.Total summary)
          (ValidationSummary.Passed summary) (ValidationSummary.Failed summary)
          (ValidationSummary.Results summary ++ [result]) in
      if TestResult.Passed result
      then
        rangeQueryFiles failFast world (S k) rest
          (ValidationSummary.mk (ValidationSummary.Total summary)
             (incr (ValidationSummary.Passed summary))
             (ValidationSummary.Failed summary)
             (ValidationSummary.Results summary))
      else
        let summary :=
          ValidationSummary.mk (ValidationSummary.Total summary)
            (ValidationSummary.Passed summary)
            (incr (ValidationSummary.Failed summary))
            (ValidationSummary.Results summary) in
        if failFast then summary
        else rangeQueryFiles failFast world (S k) rest summary
  end.

(** [validateQueries] (lines 182-203). *)
Definition validateQueries (failFast : bool) (world : nat -> World)
    (queryFiles : list string) : ValidationSummary.t :=
  rangeQueryFiles failFast world 0 queryFiles
    (ValidationSummary.mk (len queryFiles) 0 0 []).

End Runner.

(** *** The command and the exit of the process *)

(** [Config] and its [Validate] (unnamed/part_004). *)
Record Database : Type := mkDatabase {
  Type_ : string;
  Host : string;
  Port : Z;
  DBName : string;
  User : string;
  Password : string;
  SSLMode : string
}.

Record Config : Type := mkConfig {
  database : Database;
  Production : bool
}.

Definition Validate (c : Config) : option string :=
  if String.eqb (Host (database c)) "" then Some "database host is required"
  else if (Port (database c) =? 0)%Z then Some "database port is required"
  else if String.eqb (DBName (database c)) "" then Some "database name is required"
  else if String.eqb (User (database c)) "" then Some "database user is required"
  else None.

(** What [runValidate] observes before the first query runs: the outcome of
    [LoadConfig], of [initializeGraphJin] (the error, if any), of
    [os.IsNotExist] on the [os.Stat] of the [--file] argument, and of
    [findQueryFiles]. *)
Record Setup : Type := mkSetup {
  LoadConfig : string -> Config + string;
  initializeGraphJin : Config -> option string;
  notExist : string -> bool;
  findQueryFiles : string -> list string * option string
}.

(** The end of [runValidate] (lines 125-130): the error returned for a
    summary. *)
Definition failedError (results : ValidationSummary.t) : option string :=
  if (0 <? ValidationSummary.Failed results)%Z
  then Some (fmt_dZ (ValidationSummary.Failed results) +s+ " validation(s) failed")
  else None.

Section Command.

Variable fmtV : value -> string.
Variable Unmarshal : string -> option value.
Variable filepath_Base : string -> string.

(** The flags [cfgFile], [queriesDir], [queryFile] and [failFast]. *)
Variables cfgFile queriesDir queryFile : string.
Variable failFast : bool.

(** [runValidate] (lines 75-131): the error it returns, [None] for [nil].
    Printing is left out. *)
Definition runValidate (s : Setup) (world : nat -> World) : option string :=
  match LoadConfig s cfgFile with
  | inr err => Some ("failed to load config: " +s+ err)
  | inl config =>
      match Validate config with
      | Some err => Some ("invalid configuration: " +s+ err)
      | None =>
          match initializeGraphJin s config with
          | Some err => Some ("failed to initialize GraphJin: " +s+ err)
          | None =>
              let found : list string + string :=
                if negb (String.eqb queryFile "")
                then
                  if notExist s queryFile
                  then inr ("query file not found: " +s+ queryFile)
                  else inl [queryFile]
                else
                  match findQueryFiles s queriesDir with
                  | (_, Some err) => inr ("failed to find query files: " +s+ err)
                  | (queryFiles, None) => inl queryFiles
                  end in
              match found with
              | inr err => Some err
              | inl queryFiles =>
                  if (len queryFiles =? 0)%Z then None
                  else
                    failedError
                      (validateQueries fmtV Unmarshal filepath_Base failFast
                         world queryFiles)
              end
          end
      end
  end.

End Command.

(** [Execute] (unnamed/part_003, lines 46-51) on the error the command returned:
    [Some 1] is [os.Exit(1)], [None] is the return to the caller. *)
Definition Execute (err : option string) : option Z :=
  match err with
  | Some _ => Some 1%Z
  | None => None
  end.

(** Modelled from the spec: the entry point of the [gql-validate] binary is
    not among the sources.  It is taken to call [Execute] and return, so that
    the process ends with status 0 unless [Execute] exits (section 4.3,
    exit status 0 if [failed == 0]). *)
Definition exitStatus (exit : option Z) : Z :=
  match exit with
  | Some code => code
  | None => 0%Z
  end.

End Cmd.

(* ================================================================== *)
(** ** Package main: the stand-alone validator (main.go) *)

Module Main.

Record TestResult : Type := mkTestResult {
  Name : string;
  Path : string;
  Passed : bool;
  Error : string;
  Duration : Z
}.

Section Scanner.

Variable rangeOrder : nat -> nat -> list nat.

(** [checkForErrors] (lines 240-273).  The result carries the number of map
    [range] statements started so far, as [ranges] of [Cmd.state] does. *)
Fixpoint checkForErrors (data : value) (k : nat) {struct data} : bool * nat :=
  match data with
  | VMap v =>
      if match lookup "errors" v with
         | Some VNil => false
         | Some _ => true
         | None => false
         end
      then (true, k)
      else if match lookup "error" v with
              | Some VNil => false
              | Some (VString errorVal) => negb (String.eqb errorVal "")
              | Some _ => true
              | None => false
              end
      then (true, k)
      else
        (fix range (order : list nat) (k : nat) {struct order} : bool * nat :=
           match order with
           | [] => (false, k)
           | pos :: order' =>
               let (found, k') :=
                 (fix entry (l : list (string * value)) (n : nat) {struct l}
                    : bool * nat :=
                    match l with
                    | [] => (false, k)
                    | (_, value) :: l' =>
                        match n with
                        | O => checkForErrors value k
                        | S n' => entry l' n'
                        end
                    end) v pos in
               if found then (true, k') else range order' k'
           end) (rangeOrder k (List.length v)) (S k)
  | VSlice v =>
      (fix range (l : list value) (k : nat) {struct l} : bool * nat :=
         match l with
         | [] => (false, k)
         | item :: l' =>
             let (found, k') := checkForErrors item k in
             if found then (true, k') else range l' k'
         end) v k
  | _ => (false, k)
  end.

(** [json.Unmarshal] into a [map[string]interface{}], through the decoding
    into an [interface{}]: an object fills the map, [null] leaves the nil
    map, which has no entry, and any other document is a type error. *)
Definition UnmarshalMap (Unmarshal : string -> option value) (data : string)
    : option (list (string * value)) :=
  match Unmarshal data with
  | Some (VMap m) => Some m
  | Some VNil => Some []
  | _ => None
  end.

(** [hasNestedErrors] (lines 227-238). *)
Definition hasNestedErrors (Unmarshal : string -> option value)
    (data : string) : bool :=
  if String.length data =? 0 then false
  else
    match UnmarshalMap Unmarshal data with
    | None => false
    | Some result => fst (checkForErrors (VMap result) 0)
    end.

End Scanner.

(** [log.Fatalf]: the message, then [os.Exit(1)]. *)
Definition log_Fatalf : Z := 1%Z.

(** The exit code of [main] (lines 81-88). *)
Fixpoint exitCodeFrom (results : list TestResult) (exitCode : Z) : Z :=
  match results with
  | [] => exitCode
  | result :: rest =>
      if negb (Passed result) then 1%Z else exitCodeFrom rest exitCode
  end.

(** What [main] observes: the outcomes of [loadConfig], [initializeGraphJin]
    (the error, if any), [findQueryFiles] and [testQueries]. *)
Record Setup : Type := mkSetup {
  loadConfig : string -> unit + string;
  initializeGraphJin : option string;
  findQueryFiles : string -> list string * option string;
  testQueries : list string -> list TestResult
}.

(** [main] (lines 44-91): the status the process exits with.  Printing is
    left out. *)
Definition main (configPath queriesDir : string) (s : Setup) : Z :=
  match loadConfig s configPath with
  | inr _ => log_Fatalf
  | inl _ =>
      match initializeGraphJin s with
      | Some _ => log_Fatalf
      | None =>
          match findQueryFiles s queriesDir with
          | (_, Some _) => log_Fatalf
          | (queryFiles, None) =>
              if Nat.eqb (List.length queryFiles) 0 then 0%Z
              else exitCodeFrom (testQueries s queryFiles) 0%Z
          end
      end
  end.

Section Runner.

Variable Unmarshal : string -> option value.
Variable filepath_Base : string -> string.

(** One turn of the loop of [testQueries] (lines 167-222) in the world [w];
    [None] is the panic of [res.Data] on a nil [res], which the code reaches
    when the engine returns neither a result nor an error.  A variables file
    that exists and cannot be read leaves [variables] nil, the empty byte
    slice.  Printing under [verbose] is left out. *)
Definition testQuery (w : Cmd.World) (queryFile : string) : option TestResult :=
  let result := mkTestResult (filepath_Base queryFile) queryFile false "" 0 in
  match Cmd.os_ReadFile w queryFile with
  | inr err =>
      Some (mkTestResult (Name result) (Path result) (Passed result)
              ("Failed to read query file: " +s+ err) (Cmd.sinceStart w))
  | inl query =>
      let jsonFile := Cmd.TrimSuffix queryFile ".graphql" +s+ ".json" in
      let variables :=
        if Cmd.os_Stat w jsonFile
        then
          match Cmd.os_ReadFile w jsonFile with
          | inl jsonData => jsonData
          | inr _ => ""
          end
        else "{}" in
      match Cmd.gj_GraphQL w query variables with
      | (_, Some err) =>
          Some (mkTestResult (Name result) (Path result) (Passed result)
                  ("GraphQL execution error: " +s+ err) (Cmd.sinceStart w))
      | (None, None) => None
      | (Some res, None) =>
          if hasNestedErrors (Cmd.mapOrder w) Unmarshal (Cmd.Result.Data res)
          then
            Some (mkTestResult (Name result) (Path result) (Passed result)
                    "Query returned nested errors in data" (Cmd.sinceStart w))
          else
            Some (mkTestResult (Name result) (Path result) true
                    (Error result) (Cmd.sinceStart w))
      end
  end.

(** [testQueries] (lines 164-225); the [k]-th turn observes [world k]. *)
Fixpoint rangeTestQueries (world : nat -> Cmd.World) (k : nat)
    (queryFiles : list string) (results : list TestResult)
    : option (list TestResult) :=
  match queryFiles with
  | [] => Some results
  | queryFile :: rest =>
      match testQuery (world k) queryFile with
      | None => None
      | Some result => rangeTestQueries world (S k) rest (results ++ [result])
      end
  end.

Definition testQueriesOn (world : nat -> Cmd.World) (queryFiles : list string)
    : option (list TestResult) :=
  rangeTestQueries world 0 queryFiles [].

End Runner.

(** The counters [passed] and [failed] of [printResults] (lines 276-285). *)
Fixpoint tally (results : list TestResult) (passed failed : Z) : Z * Z :=
  match results with
  | [] => (passed, failed)
  | result :: rest =>
      if Passed result
      then tally rest (Cmd.incr passed) failed
      else tally rest passed (Cmd.incr failed)
  end.

End Main.

(* ================================================================== *)
(** ** Readings of the two scanners used in the proofs *)

Section Readings.

Variable rangeOrder : nat -> nat -> list nat.
Variable fmtV : value -> string.

(** One turn of the map loop of [collectErrors], at position [pos]. *)
Definition visitAt (v : list (string * value)) (path : string)
    (st : Cmd.state) (pos : nat) : Cmd.state :=
  match nth_error v pos with
  | Some (key, value) =>
      Cmd.collectErrors rangeOrder fmtV value st (Cmd.keyPath path key)
  | None => st
  end.

(** The slice loop of [collectErrors], from index [i] on. *)
Fixpoint rangeSlice (l : list value) (i : nat) (st : Cmd.state)
    (path : string) : Cmd.state :=
  match l with
  | [] => st
  | item :: l' =>
      rangeSlice l' (S i)
        (Cmd.collectErrors rangeOrder fmtV item st (Cmd.indexPath path i)) path
  end.

(** What the two checks of a map add to an empty list. *)
Definition keyFindings (v : list (string * value)) (path : string)
    : list string :=
  Cmd.errors
    (Cmd.checkErrorKey v (Cmd.checkErrorsKey fmtV v (Cmd.mkState [] 0) path) path).

(** The findings of a value when every map is visited in the order of its
    entries. *)
Fixpoint findings (data : value) (path : string) {struct data} : list string :=
  match data with
  | VMap v =>
      keyFindings v path ++
      (fix entries (l : list (string * value)) : list string :=
         match l with
         | [] => []
         | (key, value) :: l' =>
             findings value (Cmd.keyPath path key) ++ entries l'
         end) v
  | VSlice v =>
      (fix items (l : list value) (i : nat) : list string :=
         match l with
         | [] => []
         | item :: l' => findings item (Cmd.indexPath path i) ++ items l' (S i)
         end) v 0
  | _ => []
  end.

(** The findings of the entry at position [pos] of a map. *)
Definition entryFindings (v : list (string * value)) (path : string)
    (pos : nat) : list string :=
  match nth_error v pos with
  | Some (key, value) => findings value (Cmd.keyPath path key)
  | None => []
  end.

Fixpoint mapFindings (l : list (string * value)) (path : string)
    : list string :=
  match l with
  | [] => []
  | (key, value) :: l' => findings value (Cmd.keyPath path key) ++ mapFindings l' path
  end.

Fixpoint sliceFindings (l : list value) (i : nat) (path : string)
    : list string :=
  match l with
  | [] => []
  | item :: l' => findings item (Cmd.indexPath path i) ++ sliceFindings l' (S i) path
  end.

(** A run of [collectErrors] over [data] keeps the list it is given and adds
    the findings of [data], in some order. *)
Definition addsFindings (data : value) : Prop :=
  forall (st : Cmd.state) (path : string),
  exists out,
    Cmd.errors (Cmd.collectErrors rangeOrder fmtV data st path) =
      Cmd.errors st ++ out /\
    Permutation out (findings data path).

(** One turn of the map loop of [checkForErrors]. *)
Definition probeAt (v : list (string * value)) (k : nat) (pos : nat)
    : bool * nat :=
  match nth_error v pos with
  | Some (_, value) => Main.checkForErrors rangeOrder value k
  | None => (false, k)
  end.

Fixpoint rangeProbe (v : list (string * value)) (order : list nat) (k : nat)
    : bool * nat :=
  match order with
  | [] => (false, k)
  | pos :: order' =>
      let (found, k') := probeAt v k pos in
      if found then (true, k') else rangeProbe v order' k'
  end.

Fixpoint rangeItems (l : list value) (k : nat) : bool * nat :=
  match l with
  | [] => (false, k)
  | item :: l' =>
      let (found, k') := Main.checkForErrors rangeOrder item k in
      if found then (true, k') else rangeItems l' k'
  end.

End Readings.

(** The two key tests of [checkForErrors]. *)
Definition errorsFlag (v : list (string * value)) : bool :=
  match lookup "errors" v with
  | Some VNil => false
  | Some _ => true
  | None => false
  end.

Definition errorFlag (v : list (string * value)) : bool :=
  match lookup "error" v with
  | Some VNil => false
  | Some (VString errorVal) => negb (String.eqb errorVal "")
  | Some _ => true
  | None => false
  end.

(** Whether some map of the value passes one of the tests of
    [checkForErrors]. *)
Fixpoint flagged (data : value) : bool :=
  match data with
  | VMap v =>
      errorsFlag v || errorFlag v ||
      (fix any (l : list (string * value)) : bool :=
         match l with
         | [] => false
         | (_, value) :: l' => flagged value || any l'
         end) v
  | VSlice v =>
      (fix any (l : list value) : bool :=
         match l with
         | [] => false
         | item :: l' => flagged item || any l'
         end) v
  | _ => false
  end.

(** The results that passed, the results that failed. *)
Definition passedIn (results : list Cmd.TestResult.t) : list Cmd.TestResult.t :=
  filter Cmd.TestResult.Passed results.

Definition failedIn (results : list Cmd.TestResult.t) : list Cmd.TestResult.t :=
  filter (fun result => negb (Cmd.TestResult.Passed result)) results.

(** A summary whose counters count its results. *)
Definition counted (summary : Cmd.ValidationSummary.t) : Prop :=
  Cmd.ValidationSummary.Passed summary =
    Cmd.len (passedIn (Cmd.ValidationSummary.Results summary)) /\
  Cmd.ValidationSummary.Failed summary =
    Cmd.len (failedIn (Cmd.ValidationSummary.Results summary)).

(* ================================================================== *)
(** ** Documents and runtimes of the closed examples *)

(** [%v] on the values the closed examples render: [nil], booleans, strings,
    the empty slice and the empty map.  The other values are not rendered by
    the examples. *)
Definition printV (e : value) : string :=
  match e with
  | VNil => "<nil>"
  | VBool true => "true"
  | VBool false => "false"
  | VString s => s
  | VSlice [] => "[]"
  | VMap [] => "map[]"
  | _ => "?"
  end.

(** [{errors: [{message: x}, {message: y}]}] *)
Definition twoMessages : value :=
  VMap [("errors",
         VSlice [VMap [("message", VString "x")];
                 VMap [("message", VString "y")]])].

(** [{errors: [boom]}]: the element of the slice is a string. *)
Definition stringElement : value :=
  VMap [("errors", VSlice [VString "boom"])].

(** [{errors: [{}]}]: the element of the slice is a map without [message]. *)
Definition bareElement : value :=
  VMap [("errors", VSlice [VMap []])].

(** [{a: {error: x}, b: {error: y}}] *)
Definition twoKeys : value :=
  VMap [("a", VMap [("error", VString "x")]);
        ("b", VMap [("error", VString "y")])].

(** [{errors: []}] *)
Definition emptyErrors : value := VMap [("errors", VSlice [])].

(** [filepath.Base] on a path with no separator. *)
Definition baseOfName (path : string) : string := path.

(** A decoder that refuses every payload. *)
Definition refuseAll (data : string) : option value := None.

(** A world in which no file can be read, and one in which every file is
    read and the engine answers with neither error nor data. *)
Definition unreadable : Cmd.World :=
  Cmd.mkWorld (fun _ => inr "open: no such file or directory") (fun _ => false)
    (fun _ _ => (None, Some "unreachable")) 0 inOrder.

Definition healthy : Cmd.World :=
  Cmd.mkWorld (fun _ => inl "{ users { id } }") (fun _ => false)
    (fun _ _ => (Some (Cmd.Result.mk [] ""), None)) 3 inOrder.

(** Setups of the two programs in which the configuration file is missing,
    and in which the database does not answer. *)
Definition aConfig : Cmd.Config :=
  Cmd.mkConfig
    (Cmd.mkDatabase "postgres" "localhost" 5432 "testdb" "testuser" "testpass"
       "disable")
    false.

Definition noConfig : Cmd.Setup :=
  Cmd.mkSetup (fun _ => inr "could not read config file")
    (fun _ => None) (fun _ => false) (fun _ => (["a.graphql"], None)).

Definition noDatabase : Cmd.Setup :=
  Cmd.mkSetup (fun _ => inl aConfig)
    (fun _ => Some "failed to ping database") (fun _ => false)
    (fun _ => (["a.graphql"], None)).

Definition ready : Cmd.Setup :=
  Cmd.mkSetup (fun _ => inl aConfig)
    (fun _ => None) (fun _ => false) (fun _ => (["a.graphql"], None)).

Definition failedResult : Main.TestResult :=
  Main.mkTestResult "a.graphql" "a.graphql" false
    "Query returned nested errors in data" 2.

Definition mainNoConfig : Main.Setup :=
  Main.mkSetup (fun _ => inr "could not read config file") None
    (fun _ => (["a.graphql"], None)) (fun _ => []).

Definition mainNoDatabase : Main.Setup :=
  Main.mkSetup (fun _ => inl tt) (Some "failed to ping database")
    (fun _ => (["a.graphql"], None)) (fun _ => []).

Definition mainReady : Main.Setup :=
  Main.mkSetup (fun _ => inl tt) None
    (fun _ => (["a.graphql"], None)) (fun _ => [failedResult]).

(** Two query files under [--fail-fast] when no file can be read: the loop
    stops after the first. *)
Definition stoppedEarly : Cmd.ValidationSummary.t :=
  Cmd.validateQueries printV refuseAll baseOfName true (fun _ => unreadable)
    ["a.graphql"; "b.graphql"].

(** The payloads [{"errors":[]}], [{"error":"bad"}] and [[{"error":"bad"}]],
    with the quote written by its code, and [json.Unmarshal] on these three
    payloads. *)
Definition quote : string := String (ascii_of_nat 34) EmptyString.

Definition emptyErrorsPayload : string :=
  "{" +s+ quote +s+ "errors" +s+ quote +s+ ":[]}".

Definition badPayload : string :=
  "{" +s+ quote +s+ "error" +s+ quote +s+ ":" +s+ quote +s+ "bad" +s+ quote +s+ "}".

Definition arrayPayload : string := "[" +s+ badPayload +s+ "]".

Definition decodeSamples (data : string) : option value :=
  if String.eqb data emptyErrorsPayload then Some emptyErrors
  else if String.eqb data badPayload then Some (VMap [("error", VString "bad")])
  else if String.eqb data arrayPayload
       then Some (VSlice [VMap [("error", VString "bad")]])
  else None.

(* ================================================================== *)
(** ** Readings of the runner used in the proofs *)

(** The results of the files when every file is run: the [k]-th call and
    the following ones, in the order of the files. *)
Fixpoint resultsFrom (validate : nat -> string -> Cmd.TestResult.t) (k : nat)
    (queryFiles : list string) : list Cmd.TestResult.t :=
  match queryFiles with
  | [] => []
  | qf :: rest => validate k qf :: resultsFrom validate (S k) rest
  end.

(** A list of results cut after its first failed result. *)
Fixpoint throughFirstFailure (results : list Cmd.TestResult.t)
    : list Cmd.TestResult.t :=
  match results with
  | [] => []
  | result :: rest =>
      if Cmd.TestResult.Passed result
      then result :: throughFirstFailure rest
      else [result]
  end.

(* ================================================================== *)
(** ** Package cmd: the configuration file (unnamed/part_004) *)

Module CmdConfig.

Section Loading.

(** The file system, [yaml.Unmarshal] into a zero [Config] (the error, if
    any, by its text), the environment ([os.Getenv], empty for a variable
    that is not set) and [fmt.Sscanf] with the verb [%d] ([None] when it
    returns an error). *)
Variable os_ReadFile : string -> string + string.
Variable yaml_Unmarshal : string -> Cmd.Config + string.
Variable os_Getenv : string -> string.
Variable Sscanf_d : string -> option Z.

(** [getEnv] (lines 54-59). *)
Definition getEnv (key defaultValue : string) : string :=
  if negb (String.eqb (os_Getenv key) "") then os_Getenv key else defaultValue.

(** [LoadConfig] (lines 24-51). *)
Definition LoadConfig (configPath : string) : Cmd.Config + string :=
  match os_ReadFile configPath with
  | inr err => inr ("could not read config file: " +s+ err)
  | inl data =>
      match yaml_Unmarshal data with
      | inr err => inr ("could not parse config file: " +s+ err)
      | inl config =>
          let db := Cmd.database config in
          let Host := getEnv "DB_HOST" (Cmd.Host db) in
          let DBName := getEnv "DB_NAME" (Cmd.DBName db) in
          let User := getEnv "DB_USER" (Cmd.User db) in
          let Password := getEnv "DB_PASSWORD" (Cmd.Password db) in
          let SSLMode := getEnv "DB_SSLMODE" (Cmd.SSLMode db) in
          let Port :=
            if negb (String.eqb (os_Getenv "DB_PORT") "")
            then
              match Sscanf_d (os_Getenv "DB_PORT") with
              | Some port => port
              | None => Cmd.Port db
              end
            else Cmd.Port db in
          inl (Cmd.mkConfig
                 (Cmd.mkDatabase (Cmd.Type_ db) Host Port DBName User Password
                    SSLMode)
                 (Cmd.Production config))
      end
  end.

End Loading.

(** [GetDSN] (lines 62-71). *)
Definition GetDSN (c : Cmd.Config) : string :=
  "host=" +s+ Cmd.Host (Cmd.database c) +s+
  " port=" +s+ Cmd.fmt_dZ (Cmd.Port (Cmd.database c)) +s+
  " dbname=" +s+ Cmd.DBName (Cmd.database c) +s+
  " user=" +s+ Cmd.User (Cmd.database c) +s+
  " password=" +s+ Cmd.Password (Cmd.database c) +s+
  " sslmode=" +s+ Cmd.SSLMode (Cmd.database c).

End CmdConfig.

(* ================================================================== *)
(** ** Package cmd: the check command (cmd/check.go) *)

Module CmdCheck.

(** [truncateString] (lines 114-119) on an [int] [maxLen]; [None] is the
    panic of the slice expression [s[:maxLen-3]] when its bound is negative
    or beyond the length of [s]. *)
Definition truncateString (s : string) (maxLen : Z) : option string :=
  if (Cmd.lenBytes s <=? maxLen)%Z then Some s
  else
    let high := Cmd.wrapInt (maxLen - 3) in
    if ((0 <=? high) && (high <=? Cmd.lenBytes s))%Z
    then Some (substring 0 (Z.to_nat high) s +s+ "...")
    else None.

End CmdCheck.

(* ================================================================== *)
(** ** Package cmd: the init command (cmd/init.go) *)

Module CmdInit.

(** The line feed, and the lines of a Go raw string, each closed by one. *)
Definition newline : string := String (ascii_of_nat 10) EmptyString.

Definition unlines (lines : list string) : string :=
  String.concat "" (map (fun line => line +s+ newline) lines).

(** The six constants (lines 122-197). *)
Definition sampleConfig : string :=
  unlines
    ["# GraphQL Validation Tool Configuration";
     "# Database credentials can be overridden with environment variables:";
     "# DB_HOST, DB_PORT, DB_NAME, DB_USER, DB_PASSWORD, DB_SSLMODE";
     "";
     "database:";
     ("  type: " +s+ quote +s+ "postgres" +s+ quote);
     ("  host: " +s+ quote +s+ "localhost" +s+ quote);
     "  port: 5432";
     ("  dbname: " +s+ quote +s+ "your_database" +s+ quote);
     ("  user: " +s+ quote +s+ "your_user" +s+ quote);
     ("  password: " +s+ quote +s+ "your_password" +s+ quote);
     ("  sslmode: " +s+ quote +s+ "disable" +s+ quote);
     "";
     "# Set to true for production mode (disables debug output)";
     "production: false"].

Definition sampleEnv : string :=
  unlines
    ["# Database Configuration";
     "# Copy this file to .env and fill in your values";
     "# Then run: source .env";
     "";
     "export DB_HOST=localhost";
     "export DB_PORT=5432";
     "export DB_NAME=your_database";
     "export DB_USER=your_user";
     "export DB_PASSWORD=your_password";
     "export DB_SSLMODE=disable"].

Definition sampleQuery : string :=
  unlines
    ["# Sample query to fetch all users";
     "# Modify this to match your database schema";
     "";
     "query GetUsers {";
     "  users {";
     "    id";
     "    name";
     "    email";
     "    created_at";
     "  }";
     "}"].

Definition sampleQueryWithVars : string :=
  unlines
    ["# Sample query with variables";
     "# Variables are provided in the corresponding .json file";
     "";
     "query GetUserById($id: Int!) {";
     "  users(where: { id: { eq: $id } }) {";
     "    id";
     "    name";
     "    email";
     "    created_at";
     "  }";
     "}"].

Definition sampleVars : string :=
  unlines
    ["{";
     ("  " +s+ quote +s+ "id" +s+ quote +s+ ": 1");
     "}"].

Definition sampleGitignore : string :=
  unlines
    ["# Environment files with secrets";
     ".env";
     "";
     "# Binary";
     "gql-validate";
     "";
     "# OS files";
     ".DS_Store";
     "Thumbs.db";
     "";
     "# IDE";
     ".idea/";
     ".vscode/";
     "*.swp";
     "*.swo"].

(** The regular files of the file system: the contents by path. *)
Definition files : Type := string -> option string.

Definition put (fs : files) (path : string) (content : option string) : files :=
  fun p => if String.eqb p path then content else fs p.

(** A command that threads the files and stops at the first error. *)
Definition step : Type := files -> files * option string.

Definition andThen (first next : step) : step :=
  fun fs =>
    match first fs with
    | (fs', None) => next fs'
    | (fs', Some err) => (fs', Some err)
    end.

Local Infix ";;" := andThen (at level 61, right associativity).

Section Init.

(** What is outside the files: the paths [os.Stat] finds that are no regular
    file (directories and the like), the error of [os.WriteFile] at a path,
    if it fails there, with what the failed call leaves at the path, the
    error of [os.MkdirAll], and [filepath.Join]. *)
Variable other : string -> bool.
Variable writeError : string -> option string.
Variable leftover : string -> option string.
Variable os_MkdirAll : string -> option string.
Variable filepath_Join : string -> string -> string.

(** [os.Stat(path)] returns no error. *)
Definition found (fs : files) (path : string) : bool :=
  match fs path with
  | Some _ => true
  | None => other path
  end.

(** [os.WriteFile(path, content, 0644)]. *)
Definition os_WriteFile (path content : string) : step :=
  fun fs =>
    match writeError path with
    | Some err => (put fs path (leftover path), Some err)
    | None => (put fs path (Some content), None)
    end.

(** [writeFileIfNotExists] (lines 108-120).  Printing is left out. *)
Definition writeFileIfNotExists (path content : string) (overwrite : bool)
    : step :=
  fun fs =>
    if found fs path && negb overwrite then (fs, None)
    else
      match os_WriteFile path content fs with
      | (fs', Some err) =>
          (fs', Some ("failed to write " +s+ path +s+ ": " +s+ err))
      | (fs', None) => (fs', None)
      end.

(** [runInit] (lines 43-106) with the flags [initDir] and [overwrite]. *)
Definition runInit (initDir : string) (overwrite : bool) : step :=
  let queriesDir := filepath_Join initDir "queries" in
  fun fs =>
    match os_MkdirAll queriesDir with
    | Some err => (fs, Some ("failed to create queries directory: " +s+ err))
    | None =>
        (writeFileIfNotExists (filepath_Join initDir "config.yaml")
           sampleConfig overwrite ;;
         writeFileIfNotExists (filepath_Join initDir ".env.example")
           sampleEnv overwrite ;;
         writeFileIfNotExists (filepath_Join queriesDir "get_users.graphql")
           sampleQuery overwrite ;;
         writeFileIfNotExists (filepath_Join queriesDir "get_user_by_id.graphql")
           sampleQueryWithVars overwrite ;;
         writeFileIfNotExists (filepath_Join queriesDir "get_user_by_id.json")
           sampleVars overwrite ;;
         writeFileIfNotExists (filepath_Join initDir ".gitignore")
           sampleGitignore overwrite) fs
    end.

(** The files of a project, in the order [runInit] writes them. *)
Definition projectFiles (initDir : string) : list (string * string) :=
  let queriesDir := filepath_Join initDir "queries" in
  [(filepath_Join initDir "config.yaml", sampleConfig);
   (filepath_Join initDir ".env.example", sampleEnv);
   (filepath_Join queriesDir "get_users.graphql", sampleQuery);
   (filepath_Join queriesDir "get_user_by_id.graphql", sampleQueryWithVars);
   (filepath_Join queriesDir "get_user_by_id.json", sampleVars);
   (filepath_Join initDir ".gitignore", sampleGitignore)].

(** The writes of [runInit], one after the other. *)
Fixpoint writeAll (overwrite : bool) (todo : list (string * string)) : step :=
  match todo with
  | [] => fun fs => (fs, None)
  | (path, content) :: rest =>
      writeFileIfNotExists path content overwrite ;; writeAll overwrite rest
  end.

End Init.

End CmdInit.

(* ================================================================== *)
(** ** Package cmd: the query files of a directory *)

Module CmdFiles.

(** What [filepath.Walk] hands to its function at one file or directory: the
    path, the [os.FileInfo] and the error of the walk at this place. *)
Record FileInfo : Type := mkFileInfo {
  Name : string;
  IsDir : bool;
  Size : Z
}.

Record Visit : Type := mkVisit {
  path : string;
  info : FileInfo;
  err : option string
}.

(** The function [findQueryFiles] gives to the walk (unnamed/part_001, lines
    167-177; main.go, lines 149-159), called on the visits in turn until it
    returns an error, which ends the walk. *)
Fixpoint walkQueryFiles (visits : list Visit) (queryFiles : list string)
    : list string * option string :=
  match visits with
  | [] => (queryFiles, None)
  | visit :: rest =>
      match err visit with
      | Some e => (queryFiles, Some e)
      | None =>
          if negb (IsDir (info visit)) &&
             Cmd.HasSuffix (Name (info visit)) ".graphql"
          then walkQueryFiles rest (queryFiles ++ [path visit])
          else walkQueryFiles rest queryFiles
      end
  end.

(** [findQueryFiles] (unnamed/part_001, lines 164-180; main.go, lines
    146-162); [filepath_Walk dir] is the visits of the walk of [dir]. *)
Definition findQueryFiles (filepath_Walk : string -> list Visit) (dir : string)
    : list string * option string :=
  walkQueryFiles (filepath_Walk dir) [].

End CmdFiles.

(* ================================================================== *)
(** ** Package cmd: the list command (unnamed/part_002) *)

Module CmdList.

(** [QueryInfo] (lines 17-24). *)
Record QueryInfo : Type := mkQueryInfo {
  Name : string;
  Path : string;
  HasVars : bool;
  VarsFile : string;
  SizeBytes : Z;
  Description : string
}.

(** [strings.Split(s, "\n")]: the pieces between the line feeds. *)
Fixpoint splitLines (s : string) : list string :=
  match s with
  | EmptyString => [""]
  | String c s' =>
      if Ascii.eqb c (ascii_of_nat 10) then "" :: splitLines s'
      else
        match splitLines s' with
        | first :: others => String c first :: others
        | [] => [String c ""]
        end
  end.

(** [strings.HasPrefix] and [strings.TrimPrefix]. *)
Definition HasPrefix (s prefix : string) : bool := String.prefix prefix s.

Definition TrimPrefix (s prefix : string) : string :=
  if HasPrefix s prefix
  then substring (String.length prefix) (String.length s - String.length prefix) s
  else s.

Section Listing.

(** [strings.TrimSpace]. *)
Variable TrimSpace : string -> string.

(** The loop of [extractDescription] (lines 116-129). *)
Fixpoint firstDescription (lines : list string) : string :=
  match lines with
  | [] => ""
  | line :: rest =>
      let line := TrimSpace line in
      if HasPrefix line "#"
      then
        let desc := TrimSpace (TrimPrefix line "#") in
        if negb (String.eqb desc "") then desc else firstDescription rest
      else if negb (String.eqb line "") then ""
      else firstDescription rest
  end.

(** [extractDescription] (lines 114-131). *)
Definition extractDescription (content : string) : string :=
  firstDescription (splitLines content).

(** The file system as [runList] reads it. *)
Variable os_Stat : string -> bool.
Variable os_ReadFile : string -> string + string.

(** The function [runList] gives to the walk (lines 67-95), called on the
    visits in turn until it returns an error. *)
Fixpoint walkQueries (visits : list CmdFiles.Visit) (queries : list QueryInfo)
    : list QueryInfo * option string :=
  match visits with
  | [] => (queries, None)
  | visit :: rest =>
      match CmdFiles.err visit with
      | Some e => (queries, Some e)
      | None =>
          let info := CmdFiles.info visit in
          let path := CmdFiles.path visit in
          if negb (CmdFiles.IsDir info) &&
             Cmd.HasSuffix (CmdFiles.Name info) ".graphql"
          then
            let jsonFile := Cmd.TrimSuffix path ".graphql" +s+ ".json" in
            let hasVars := os_Stat jsonFile in
            let varsFile := if os_Stat jsonFile then jsonFile else "" in
            let description :=
              match os_ReadFile path with
              | inl content => extractDescription content
              | inr _ => ""
              end in
            walkQueries rest
              (queries ++
               [mkQueryInfo (CmdFiles.Name info) path hasVars varsFile
                  (CmdFiles.Size info) description])
          else walkQueries rest queries
      end
  end.

End Listing.

End CmdList.

(** A visit of a regular file whose name ends in [.graphql]. *)
Definition isQueryFile (visit : CmdFiles.Visit) : bool :=
  negb (CmdFiles.IsDir (CmdFiles.info visit)) &&
  Cmd.HasSuffix (CmdFiles.Name (CmdFiles.info visit)) ".graphql".

(** The visits before the first one that carries an error, and that error. *)
Fixpoint beforeError (visits : list CmdFiles.Visit) : list CmdFiles.Visit :=
  match visits with
  | [] => []
  | visit :: rest =>
      match CmdFiles.err visit with
      | Some _ => []
      | None => visit :: beforeError rest
      end
  end.

Fixpoint firstError (visits : list CmdFiles.Visit) : option string :=
  match visits with
  | [] => None
  | visit :: rest =>
      match CmdFiles.err visit with
      | Some e => Some e
      | None => firstError rest
      end
  end.

(** A line [extractDescription] passes over: blank once trimmed, or a
    comment with nothing but blanks after the sign. *)
Definition passedOver (TrimSpace : string -> string) (line : string) : Prop :=
  (CmdList.HasPrefix (TrimSpace line) "#" = false /\ TrimSpace line = "") \/
  (CmdList.HasPrefix (TrimSpace line) "#" = true /\
   TrimSpace (CmdList.TrimPrefix (TrimSpace line) "#") = "").

(** [strings.TrimSpace] on strings of ASCII bytes: the blanks are the space
    and the bytes 9 to 13. *)
Definition isBlank (c : ascii) : bool :=
  let n := nat_of_ascii c in (n =? 32) || ((9 <=? n) && (n <=? 13)).

Fixpoint trimLeft (s : string) : string :=
  match s with
  | EmptyString => ""
  | String c s' => if isBlank c then trimLeft s' else s
  end.

Fixpoint trimRight (s : string) : string :=
  match s with
  | EmptyString => ""
  | String c s' =>
      match trimRight s' with
      | EmptyString => if isBlank c then "" else String c ""
      | kept => String c kept
      end
  end.

Definition trimAscii (s : string) : string := trimRight (trimLeft s).

(** A world in which the engine answers with an error of its own, an error
    in the response and a payload with a nested error at once. *)
Definition troubled : Cmd.World :=
  Cmd.mkWorld (fun _ => inl "{ users { id } }") (fun _ => false)
    (fun _ _ =>
       (Some (Cmd.Result.mk [Cmd.mkError "boom"] badPayload), Some "timeout"))
    7 inOrder.

(** The same files with an engine that answers nothing wrong. *)
Definition unreadableCalm : Cmd.World :=
  Cmd.mkWorld (fun _ => inr "open: no such file or directory") (fun _ => false)
    (fun _ _ => (Some (Cmd.Result.mk [] ""), None)) 0 reversed.

(** An environment with the credentials of the database and a port, and a
    configuration file that names none. *)
Definition credentials (key : string) : string :=
  if String.eqb key "DB_HOST" then "db.internal"
  else if String.eqb key "DB_NAME" then "shop"
  else if String.eqb key "DB_USER" then "reader"
  else if String.eqb key "DB_PORT" then "6543"
  else "".

Definition blankConfig : Cmd.Config :=
  Cmd.mkConfig (Cmd.mkDatabase "" "" 0 "" "" "" "") false.

Definition scanPort (s : string) : option Z :=
  if String.eqb s "6543" then Some 6543%Z else None.

(** [filepath.Join] on a directory and a name that need no cleaning. *)
Definition joinPlain (dir name : string) : string := dir +s+ "/" +s+ name.

(** A file system that holds one configuration file, and the empty one. *)
Definition ownConfig : CmdInit.files :=
  fun p => if String.eqb p "proj/config.yaml" then Some "production: true" else None.

Definition noFiles : CmdInit.files := fun _ => None.

(** The world [troubled] with one more file, which cannot be read. *)
Definition troubledElsewhere : Cmd.World :=
  Cmd.mkWorld
    (fun p => if String.eqb p "other.graphql" then inr "gone"
              else inl "{ users { id } }")
    (fun p => String.eqb p "other.json")
    (fun _ _ =>
       (Some (Cmd.Result.mk [Cmd.mkError "boom"] badPayload), Some "timeout"))
    7 inOrder.

Definition nowhere (path : string) : bool := false.
Definition noError (path : string) : option string := None.

(* ================================================================== *)
(** ** The scanner of the validate command *)

Section ScannerFacts.

Variable rangeOrder : nat -> nat -> list nat.
Variable fmtV : value -> string.

Local Abbreviation collect := (Cmd.collectErrors rangeOrder fmtV).
Local Abbreviation visit := (visitAt rangeOrder fmtV).
Local Abbreviation slice := (rangeSlice rangeOrder fmtV).
Local Abbreviation adds := (addsFindings rangeOrder fmtV).
Local Abbreviation checks v st path :=
  (Cmd.checkErrorKey v (Cmd.checkErrorsKey fmtV v st path) path).

(** The two loops of [collectErrors], as folds. *)
Lemma collectErrors_map (v : list (string * value)) (st : Cmd.state) (path : string) :
  collect (VMap v) st path =
  fold_left (visit v path)
    (rangeOrder (Cmd.ranges (checks v st path)) (List.length v))
    (Cmd.mkState (Cmd.errors (checks v st path)) (S (Cmd.ranges (checks v st path)))).
Proof.
  cbn [Cmd.collectErrors].
  generalize (Cmd.mkState (Cmd.errors (checks v st path))
                (S (Cmd.ranges (checks v st path)))).
  generalize (rangeOrder (Cmd.ranges (checks v st path)) (List.length v)).
  intros order; induction order as [|pos order IH]; intros s; [reflexivity|].
  cbn [fold_left]. rewrite <- IH. f_equal.
  unfold visitAt.
  clear IH. revert pos. induction v as [|[key x] l IHl]; intros [|n]; try reflexivity.
  cbn [nth_error]. apply IHl.
Qed.

Lemma collectErrors_slice (v : list value) (st : Cmd.state) (path : string) :
  collect (VSlice v) st path = slice v 0 st path.
Proof.
  cbn [Cmd.collectErrors]. generalize 0. revert st.
  induction v as [|item l IH]; intros st i; [reflexivity|].
  cbn [rangeSlice]. apply IH.
Qed.

(** The checks of a map add their findings to the list and leave the rest
    of the memory alone. *)
Lemma errArrayTurn_app (e : value) (i : nat) (st : Cmd.state) (path : string) :
  Cmd.errArrayTurn fmtV e i st path =
  Cmd.mkState
    (Cmd.errors st ++
     Cmd.errors (Cmd.errArrayTurn fmtV e i (Cmd.mkState [] 0) path))
    (Cmd.ranges st).
Proof.
  destruct e as [| | | | |errMap]; cbn;
    try (rewrite app_nil_r; now destruct st).
  destruct (lookup "message" errMap) as [[| | |msg| |]|]; reflexivity.
Qed.

Lemma rangeErrArray_app (errArray : list value) (i : nat) (st : Cmd.state)
    (path : string) :
  Cmd.rangeErrArray fmtV errArray i st path =
  Cmd.mkState
    (Cmd.errors st ++
     Cmd.errors (Cmd.rangeErrArray fmtV errArray i (Cmd.mkState [] 0) path))
    (Cmd.ranges st).
Proof.
  revert i st. induction errArray as [|e rest IH]; intros i st.
  - cbn. rewrite app_nil_r. now destruct st.
  - cbn [Cmd.rangeErrArray].
    rewrite IH. symmetry. rewrite IH. symmetry.
    rewrite errArrayTurn_app. cbn [Cmd.errors Cmd.ranges].
    now rewrite <- app_assoc.
Qed.

Lemma checkErrorsKey_app (v : list (string * value)) (st : Cmd.state)
    (path : string) :
  Cmd.checkErrorsKey fmtV v st path =
  Cmd.mkState
    (Cmd.errors st ++
     Cmd.errors (Cmd.checkErrorsKey fmtV v (Cmd.mkState [] 0) path))
    (Cmd.ranges st).
Proof.
  unfold Cmd.checkErrorsKey.
  destruct (lookup "errors" v) as [[| | | |errArray|]|];
    try (cbn; rewrite app_nil_r; now destruct st).
  destruct (0 <? List.length errArray).
  - apply rangeErrArray_app.
  - cbn; rewrite app_nil_r; now destruct st.
Qed.

Lemma checkErrorKey_app (v : list (string * value)) (st : Cmd.state)
    (path : string) :
  Cmd.checkErrorKey v st path =
  Cmd.mkState
    (Cmd.errors st ++ Cmd.errors (Cmd.checkErrorKey v (Cmd.mkState [] 0) path))
    (Cmd.ranges st).
Proof.
  unfold Cmd.checkErrorKey.
  destruct (lookup "error" v) as [[| | |errStr| |errMap]|];
    try (cbn; rewrite app_nil_r; now destruct st).
  - destruct (negb (errStr =? "")%string); cbn; [reflexivity|].
    rewrite app_nil_r; now destruct st.
  - destruct (lookup "message" errMap) as [[| | |msg| |]|]; cbn;
      try (rewrite app_nil_r; now destruct st); reflexivity.
Qed.

Lemma checks_app (v : list (string * value)) (st : Cmd.state) (path : string) :
  checks v st path =
  Cmd.mkState (Cmd.errors st ++ keyFindings fmtV v path) (Cmd.ranges st).
Proof.
  unfold keyFindings.
  rewrite checkErrorKey_app, checkErrorsKey_app. cbn [Cmd.errors Cmd.ranges].
  rewrite (checkErrorKey_app v (Cmd.checkErrorsKey _ _ _ _)).
  cbn [Cmd.errors]. now rewrite app_assoc.
Qed.

(** The findings of a map, entry by entry. *)
Lemma findings_map (v : list (string * value)) (path : string) :
  findings fmtV (VMap v) path = keyFindings fmtV v path ++ mapFindings fmtV v path.
Proof.
  cbn [findings]. f_equal.
  induction v as [|[key x] l IH]; [reflexivity|].
  cbn [mapFindings]. now rewrite <- IH.
Qed.

Lemma findings_slice (v : list value) (path : string) :
  findings fmtV (VSlice v) path = sliceFindings fmtV v 0 path.
Proof.
  cbn [findings]. generalize 0.
  induction v as [|item l IH]; intros i; [reflexivity|].
  cbn [sliceFindings]. now rewrite <- IH.
Qed.

Lemma flat_map_map {A B C : Type} (f : B -> list C) (g : A -> B) (l : list A) :
  flat_map f (map g l) = flat_map (fun x => f (g x)) l.
Proof.
  induction l as [|a l IH]; [reflexivity|].
  cbn. now rewrite IH.
Qed.

(** Visiting the positions in increasing order gives the entries in the order
    of the list. *)
Lemma entryFindings_seq (v : list (string * value)) (path : string) :
  flat_map (entryFindings fmtV v path) (seq 0 (List.length v)) =
  mapFindings fmtV v path.
Proof.
  induction v as [|[key x] l IH]; [reflexivity|].
  cbn [List.length seq flat_map mapFindings].
  rewrite <- seq_shift, flat_map_map.
  unfold entryFindings at 1. cbn [nth_error]. f_equal.
  rewrite <- IH. apply flat_map_ext. intros pos. reflexivity.
Qed.

Lemma fold_visit (v : list (string * value)) (path : string) :
  Forall (fun kv => adds (snd kv)) v ->
  forall (order : list nat) (st : Cmd.state),
  exists out,
    Cmd.errors (fold_left (visit v path) order st) = Cmd.errors st ++ out /\
    Permutation out (flat_map (entryFindings fmtV v path) order).
Proof.
  intros Hv order.
  induction order as [|pos order IH]; intros st.
  - exists []. cbn. now rewrite app_nil_r.
  - cbn [fold_left flat_map].
    destruct (IH (visit v path st pos)) as (out & Hout & Hperm).
    assert (Hpos : exists o,
      Cmd.errors (visit v path st pos) = Cmd.errors st ++ o /\
      Permutation o (entryFindings fmtV v path pos)).
    { unfold visitAt, entryFindings.
      destruct (nth_error v pos) as [[key x]|] eqn:Hnth.
      - apply nth_error_In in Hnth.
        rewrite Forall_forall in Hv. apply (Hv _ Hnth).
      - exists []. now rewrite app_nil_r. }
    destruct Hpos as (o & Ho & Hpo).
    exists (o ++ out). split.
    + now rewrite Hout, Ho, app_assoc.
    + now apply Permutation_app.
Qed.

Lemma slice_adds (v : list value) (path : string) :
  Forall adds v ->
  forall (i : nat) (st : Cmd.state),
  exists out,
    Cmd.errors (slice v i st path) = Cmd.errors st ++ out /\
    Permutation out (sliceFindings fmtV v i path).
Proof.
  intros Hv. induction Hv as [|item l Hitem _ IH]; intros i st.
  - exists []. cbn. now rewrite app_nil_r.
  - cbn [rangeSlice sliceFindings].
    destruct (Hitem st (Cmd.indexPath path i)) as (o & Ho & Hpo).
    destruct (IH (S i) (collect item st (Cmd.indexPath path i)))
      as (out & Hout & Hperm).
    exists (o ++ out). split.
    + now rewrite Hout, Ho, app_assoc.
    + now apply Permutation_app.
Qed.

(** From here on the runtime keeps its promise: every [range] over a map
    visits each entry once. *)
Hypothesis rangeOrder_ok : forall k n, visits_each_once (rangeOrder k n) n.

Lemma map_adds (v : list (string * value)) (st : Cmd.state) (path : string) :
  Forall (fun kv => adds (snd kv)) v ->
  exists out,
    Cmd.errors (collect (VMap v) st path) =
      Cmd.errors st ++ keyFindings fmtV v path ++ out /\
    Permutation out (mapFindings fmtV v path).
Proof.
  intros Hv. rewrite collectErrors_map, checks_app. cbn [Cmd.errors Cmd.ranges].
  destruct (fold_visit v path Hv (rangeOrder (Cmd.ranges st) (List.length v))
              (Cmd.mkState (Cmd.errors st ++ keyFindings fmtV v path)
                 (S (Cmd.ranges st)))) as (out & Hout & Hperm).
  exists out. split.
  - rewrite Hout. cbn [Cmd.errors]. now rewrite app_assoc.
  - rewrite Hperm, <- entryFindings_seq.
    apply Permutation_flat_map, rangeOrder_ok.
Qed.

(** Every run adds the findings of the value, in some order. *)
Lemma collect_adds (data : value) : adds data.
Proof.
  induction data as [| | | |items IH|entries IH] using value_ind;
    try (intros st path; exists []; cbn; now rewrite app_nil_r).
  - intros st path. rewrite collectErrors_slice, findings_slice.
    now apply slice_adds.
  - intros st path.
    destruct (map_adds entries st path IH) as (out & Hout & Hperm).
    exists (keyFindings fmtV entries path ++ out). split; [exact Hout|].
    rewrite findings_map. now apply Permutation_app_head.
Qed.

(** A finding of one turn of the loop over [errArray] is a finding of the
    whole check, and of the run over the map. *)
Lemma rangeErrArray_turn_in (errArray : list value) (j : nat) (e : value)
    (path msg : string) :
  nth_error errArray j = Some e ->
  forall (i : nat) (st : Cmd.state),
  In msg (Cmd.errors (Cmd.errArrayTurn fmtV e (i + j) (Cmd.mkState [] 0) path)) ->
  In msg (Cmd.errors (Cmd.rangeErrArray fmtV errArray i st path)).
Proof.
  revert j. induction errArray as [|e0 rest IH]; intros [|j] Hnth i st Hin;
    try discriminate.
  - injection Hnth as ->. rewrite Nat.add_0_r in Hin.
    cbn [Cmd.rangeErrArray]. rewrite rangeErrArray_app, errArrayTurn_app.
    cbn [Cmd.errors]. apply in_or_app. left. apply in_or_app. now right.
  - cbn [Cmd.rangeErrArray]. apply (IH j Hnth (S i)).
    now rewrite Nat.add_succ_comm.
Qed.

Lemma keyFindings_errors_in (v : list (string * value)) (errArray : list value)
    (j : nat) (e : value) (path msg : string) :
  lookup "errors" v = Some (VSlice errArray) ->
  nth_error errArray j = Some e ->
  In msg (Cmd.errors (Cmd.errArrayTurn fmtV e j (Cmd.mkState [] 0) path)) ->
  In msg (keyFindings fmtV v path).
Proof.
  intros Hv Hnth Hin. unfold keyFindings.
  rewrite checkErrorKey_app. cbn [Cmd.errors]. apply in_or_app. left.
  unfold Cmd.checkErrorsKey. rewrite Hv.
  destruct errArray as [|e0 rest]; [now destruct j|].
  cbn [List.length Nat.ltb Nat.leb].
  now apply (rangeErrArray_turn_in _ j e path msg Hnth 0).
Qed.

Lemma keyFindings_in_collect (v : list (string * value)) (st : Cmd.state)
    (path msg : string) :
  In msg (keyFindings fmtV v path) ->
  In msg (Cmd.errors (collect (VMap v) st path)).
Proof.
  intros Hin.
  destruct (map_adds v st path) as (out & Hout & _).
  { apply Forall_forall. intros kv _. apply collect_adds. }
  rewrite Hout. apply in_or_app. right. apply in_or_app. now left.
Qed.

(** A run over a value with no finding leaves the list as it is. *)
Lemma collect_quiet (data : value) (st : Cmd.state) (path : string) :
  findings fmtV data path = [] ->
  Cmd.errors (collect data st path) = Cmd.errors st.
Proof.
  intros Hnone. destruct (collect_adds data st path) as (out & Hout & Hperm).
  rewrite Hnone in Hperm. apply Permutation_sym, Permutation_nil in Hperm. subst out.
  now rewrite Hout, app_nil_r.
Qed.

(** A run over a map whose entries hold no finding adds the findings of the
    two checks, in the order of the checks. *)
Lemma collect_map_keys (v : list (string * value)) (st : Cmd.state)
    (path : string) :
  mapFindings fmtV v path = [] ->
  Cmd.errors (collect (VMap v) st path) = Cmd.errors st ++ keyFindings fmtV v path.
Proof.
  intros Hnone.
  destruct (map_adds v st path) as (out & Hout & Hperm).
  { apply Forall_forall. intros kv _. apply collect_adds. }
  rewrite Hnone in Hperm. apply Permutation_sym, Permutation_nil in Hperm. subst out.
  now rewrite Hout, app_nil_r.
Qed.

(** C1. A map that holds, under the key [errors], a slice whose element at
    index [i] is a map with a string under [message]: every run of
    [collectErrors] over the map emits [Error at <path>[<i>]: <message>],
    with [root] for the empty path.  At top level, the document
    [{errors: [{message: x}, {message: y}]}] gives exactly
    [Error at root[0]: x] and [Error at root[1]: y], in this order. *)
Theorem C1_errors_elements_with_message :
  (forall (v : list (string * value)) (errArray : list value) (i : nat)
          (errMap : list (string * value)) (msg : string)
          (st : Cmd.state) (path : string),
      lookup "errors" v = Some (VSlice errArray) ->
      nth_error errArray i = Some (VMap errMap) ->
      lookup "message" errMap = Some (VString msg) ->
      In ("Error at " +s+ (if String.eqb path "" then "root" else path) +s+ "["
          +s+ fmt_d i +s+ "]: " +s+ msg)
         (Cmd.errors (collect (VMap v) st path))) /\
  (forall k : nat,
      Cmd.errors
        (collect
           (VMap [("errors",
                   VSlice [VMap [("message", VString "x")];
                           VMap [("message", VString "y")]])])
           (Cmd.mkState [] k) "") =
      ["Error at root[0]: x"; "Error at root[1]: y"]).
Proof.
  split.
  - intros v errArray i errMap msg st path Hv Hnth Hmsg.
    apply keyFindings_in_collect.
    apply (keyFindings_errors_in v errArray i (VMap errMap) path _ Hv Hnth).
    cbn [Cmd.errArrayTurn]. rewrite Hmsg. cbn. now left.
  - intros k. now rewrite collect_map_keys.
Qed.

(** C2, as the code has it.  Under the same map, reached at a path that is
    not empty, an element of the slice that is a map without a string under
    [message] gives [Error at <path>[<i>]: <rendering of the element>] in
    every run; the turn of the loop for an element that is not a map adds
    nothing. *)
Theorem C2_errors_elements_without_message :
  (forall (v : list (string * value)) (errArray : list value) (i : nat)
          (errMap : list (string * value)) (st : Cmd.state) (path : string),
      lookup "errors" v = Some (VSlice errArray) ->
      nth_error errArray i = Some (VMap errMap) ->
      (forall msg, lookup "message" errMap <> Some (VString msg)) ->
      path <> "" ->
      In ("Error at " +s+ (if String.eqb path "" then "root" else path) +s+ "["
          +s+ fmt_d i +s+ "]: " +s+ fmtV (VMap errMap))
         (Cmd.errors (collect (VMap v) st path))) /\
  (forall (e : value) (i : nat) (st : Cmd.state) (path : string),
      (forall errMap, e <> VMap errMap) ->
      Cmd.errArrayTurn fmtV e i st path = st).
Proof.
  split.
  - intros v errArray i errMap st path Hv Hnth Hmsg Hpath.
    apply keyFindings_in_collect.
    apply (keyFindings_errors_in v errArray i (VMap errMap) path _ Hv Hnth).
    apply String.eqb_neq in Hpath. rewrite Hpath.
    cbn [Cmd.errArrayTurn].
    destruct (lookup "message" errMap) as [[| | |msg| |]|]; cbn; try now left.
    now contradiction (Hmsg msg).
  - intros e i st path He.
    destruct e as [| | | | |errMap]; try reflexivity.
    now contradiction (He errMap).
Qed.

(** C3. The check of the [error] key adds nothing for the empty string and
    for [null], the check of the [errors] key adds nothing for an empty
    slice, and the documents [{error: ""}], [{error: null}] and
    [{errors: []}] give no finding at all. *)
Theorem C3_falsy_indicators_give_nothing :
  (forall (v : list (string * value)) (st : Cmd.state) (path : string),
      lookup "error" v = Some (VString "") ->
      Cmd.checkErrorKey v st path = st) /\
  (forall (v : list (string * value)) (st : Cmd.state) (path : string),
      lookup "error" v = Some VNil ->
      Cmd.checkErrorKey v st path = st) /\
  (forall (v : list (string * value)) (st : Cmd.state) (path : string),
      lookup "errors" v = Some (VSlice []) ->
      Cmd.checkErrorsKey fmtV v st path = st) /\
  (forall k : nat,
      Cmd.errors (collect (VMap [("error", VString "")]) (Cmd.mkState [] k) "") = [] /\
      Cmd.errors (collect (VMap [("error", VNil)]) (Cmd.mkState [] k) "") = [] /\
      Cmd.errors (collect (VMap [("errors", VSlice [])]) (Cmd.mkState [] k) "") = []).
Proof.
  repeat split.
  - intros v st path Hv. unfold Cmd.checkErrorKey. now rewrite Hv.
  - intros v st path Hv. unfold Cmd.checkErrorKey. now rewrite Hv.
  - intros v st path Hv. unfold Cmd.checkErrorsKey. now rewrite Hv.
  - now rewrite collect_quiet.
  - now rewrite collect_quiet.
  - now rewrite collect_quiet.
Qed.

End ScannerFacts.
(** Two runs whose map loops take the same orders are the same run. *)
Lemma collect_same_orders (o1 o2 : nat -> nat -> list nat) (fmtV : value -> string) :
  (forall k n, o1 k n = o2 k n) ->
  forall (data : value) (st : Cmd.state) (path : string),
  Cmd.collectErrors o1 fmtV data st path = Cmd.collectErrors o2 fmtV data st path.
Proof.
  intros Hsame.
  induction data as [| | | |items IH|entries IH] using value_ind;
    intros st path; try reflexivity.
  - rewrite !collectErrors_slice. generalize 0. revert st.
    induction IH as [|item l Hitem _ IHl]; intros st i; [reflexivity|].
    cbn [rangeSlice]. now rewrite Hitem, IHl.
  - rewrite !collectErrors_map, Hsame.
    generalize (o2 (Cmd.ranges
                      (Cmd.checkErrorKey entries
                         (Cmd.checkErrorsKey fmtV entries st path) path))
                   (List.length entries)).
    generalize (Cmd.mkState
                  (Cmd.errors
                     (Cmd.checkErrorKey entries
                        (Cmd.checkErrorsKey fmtV entries st path) path))
                  (S (Cmd.ranges
                        (Cmd.checkErrorKey entries
                           (Cmd.checkErrorsKey fmtV entries st path) path)))).
    intros s order. revert s.
    induction order as [|pos order IHo]; intros s; [reflexivity|].
    cbn [fold_left]. rewrite IHo. f_equal.
    unfold visitAt. destruct (nth_error entries pos) as [[key x]|] eqn:Hnth;
      [|reflexivity].
    apply nth_error_In in Hnth. rewrite Forall_forall in IH.
    apply (IH _ Hnth).
Qed.

(** C8, as the code has it.  Two runs of [collectErrors] on the same value
    give the same findings, each as many times, whatever orders the runtime
    takes over the maps: the two lists agree up to the order of their
    entries. *)
Theorem C8_runs_agree_up_to_order :
  forall (o1 o2 : nat -> nat -> list nat) (fmtV : value -> string),
    (forall k n, visits_each_once (o1 k n) n) ->
    (forall k n, visits_each_once (o2 k n) n) ->
    forall (data : value) (st1 st2 : Cmd.state) (path : string),
      Cmd.errors st1 = Cmd.errors st2 ->
      Permutation
        (Cmd.errors (Cmd.collectErrors o1 fmtV data st1 path))
        (Cmd.errors (Cmd.collectErrors o2 fmtV data st2 path)).
Proof.
  intros o1 o2 fmtV Hok1 Hok2 data st1 st2 path Herrors.
  destruct (collect_adds o1 fmtV Hok1 data st1 path) as (out1 & -> & Hperm1).
  destruct (collect_adds o2 fmtV Hok2 data st2 path) as (out2 & -> & Hperm2).
  rewrite Herrors. apply Permutation_app_head.
  now rewrite Hperm1, Hperm2.
Qed.

(** The helpers and the scanner on small inputs: the path of a finding under
    a slice and a map, and a finding next to a healthy element. *)
Example fmt_d_12 : fmt_d 12 = "12".
Proof. reflexivity. Qed.

Example TrimSuffix_graphql :
  Cmd.TrimSuffix "queries/get_user.graphql" ".graphql" = "queries/get_user" /\
  Cmd.TrimSuffix "notes.txt" ".graphql" = "notes.txt".
Proof. split; reflexivity. Qed.

Example nested_path :
  Cmd.errors
    (Cmd.collectErrors inOrder printV
       (VMap [("users", VSlice [VMap [("posts", VMap [("error", VString "oops")])]])])
       (Cmd.mkState [] 0) "") =
  ["Error at users[0].posts: oops"].
Proof. reflexivity. Qed.

Example second_post :
  Cmd.errors
    (Cmd.collectErrors reversed printV
       (VMap [("posts", VSlice [VMap [("title", VString "A")];
                                VMap [("error", VString "no access")]])])
       (Cmd.mkState [] 0) "") =
  ["Error at posts[1]: no access"].
Proof. reflexivity. Qed.

(** The two runtimes of the examples keep the promise. *)
Lemma inOrder_ok : forall k n, visits_each_once (inOrder k n) n.
Proof. intros k n. apply Permutation_refl. Qed.

Lemma reversed_ok : forall k n, visits_each_once (reversed k n) n.
Proof. intros k n. apply Permutation_sym, Permutation_rev. Qed.

Lemma C1_witness :
  In "Error at root[1]: y"
     (Cmd.errors (Cmd.collectErrors inOrder printV twoMessages (Cmd.mkState [] 0) "")) /\
  Cmd.errors (Cmd.collectErrors inOrder printV twoMessages (Cmd.mkState [] 0) "") =
  ["Error at root[0]: x"; "Error at root[1]: y"].
Proof.
  destruct (C1_errors_elements_with_message inOrder printV inOrder_ok)
    as [Hin Hexact].
  split.
  - apply (Hin [("errors",
                 VSlice [VMap [("message", VString "x")];
                         VMap [("message", VString "y")]])]
               [VMap [("message", VString "x")]; VMap [("message", VString "y")]]
               1 [("message", VString "y")] "y" (Cmd.mkState [] 0) "");
      reflexivity.
  - apply Hexact.
Defined.

(** C2 does not hold as the specification states it: the element [boom] of
    [{errors: [boom]}] is not a map, and the scan gives no finding for it. *)
Lemma C2_counterexample :
  Cmd.errors (Cmd.collectErrors inOrder printV stringElement (Cmd.mkState [] 0) "") = [].
Proof. reflexivity. Qed.

Lemma C2_witness :
  In "Error at data[0]: map[]"
     (Cmd.errors (Cmd.collectErrors inOrder printV bareElement (Cmd.mkState [] 0) "data")) /\
  Cmd.errArrayTurn printV (VString "boom") 0 (Cmd.mkState [] 0) "data" = Cmd.mkState [] 0.
Proof.
  destruct (C2_errors_elements_without_message inOrder printV inOrder_ok)
    as [Hin Hskip].
  split.
  - apply (Hin [("errors", VSlice [VMap []])] [VMap []] 0 [] (Cmd.mkState [] 0) "data");
      try reflexivity; discriminate.
  - apply Hskip. discriminate.
Defined.

(** At the empty path the finding of such an element is printed with the
    path itself, not with [root]. *)
Example bareElement_at_root :
  Cmd.errors (Cmd.collectErrors inOrder printV bareElement (Cmd.mkState [] 0) "") =
  ["Error at [0]: map[]"].
Proof. reflexivity. Qed.

Lemma C3_witness :
  Cmd.checkErrorKey [("error", VString "")] (Cmd.mkState [] 0) "" = Cmd.mkState [] 0 /\
  Cmd.checkErrorKey [("error", VNil)] (Cmd.mkState [] 0) "" = Cmd.mkState [] 0 /\
  Cmd.checkErrorsKey printV [("errors", VSlice [])] (Cmd.mkState [] 0) "" = Cmd.mkState [] 0 /\
  Cmd.errors (Cmd.collectErrors inOrder printV emptyErrors (Cmd.mkState [] 0) "") = [].
Proof.
  destruct (C3_falsy_indicators_give_nothing inOrder printV inOrder_ok)
    as (Hempty & Hnull & Hnone & Hdocs).
  split; [|split; [|split]].
  - now apply Hempty.
  - now apply Hnull.
  - now apply Hnone.
  - apply (Hdocs 0).
Defined.

(** C8 does not hold as the specification states it: over
    [{a: {error: x}, b: {error: y}}] the run that takes the entries in order
    and the run that takes them in reverse order give the two findings in
    different orders. *)
Lemma C8_counterexample :
  Cmd.errors (Cmd.collectErrors inOrder printV twoKeys (Cmd.mkState [] 0) "") =
    ["Error at a: x"; "Error at b: y"] /\
  Cmd.errors (Cmd.collectErrors reversed printV twoKeys (Cmd.mkState [] 0) "") =
    ["Error at b: y"; "Error at a: x"].
Proof. split; reflexivity. Qed.

Lemma C8_witness :
  Permutation
    (Cmd.errors (Cmd.collectErrors inOrder printV twoKeys (Cmd.mkState [] 0) ""))
    (Cmd.errors (Cmd.collectErrors reversed printV twoKeys (Cmd.mkState [] 1) "")).
Proof.
  apply (C8_runs_agree_up_to_order inOrder reversed printV inOrder_ok reversed_ok
           twoKeys (Cmd.mkState [] 0) (Cmd.mkState [] 1) "").
  reflexivity.
Defined.

(* ================================================================== *)
(** ** The test runner *)

Section RunnerFacts.

Variable fmtV : value -> string.
Variable Unmarshal : string -> option value.
Variable filepath_Base : string -> string.

Local Abbreviation validateSingleQuery :=
  (Cmd.validateSingleQuery fmtV Unmarshal filepath_Base).

Lemma len_zero {A : Type} (l : list A) : (Cmd.len l =? 0)%Z = true <-> l = [].
Proof.
  unfold Cmd.len. destruct l as [|a l]; cbn [List.length]; split; intros H;
    try reflexivity; discriminate.
Qed.

(** The three checks leave [Passed] as it is. *)
Lemma checks_keep_Passed (w : Cmd.World) (res : option Cmd.Result.t)
    (err : option string) (result : Cmd.TestResult.t) :
  Cmd.TestResult.Passed
    (Cmd.checkData fmtV Unmarshal w res
       (Cmd.checkResponse res (Cmd.checkExecution err result))) =
  Cmd.TestResult.Passed result.
Proof.
  unfold Cmd.checkData, Cmd.checkResponse, Cmd.checkExecution.
  destruct err, res as [res|]; cbn;
    repeat match goal with
           | |- context [if ?c then _ else _] => destruct c; cbn
           end; reflexivity.
Qed.

Lemma verdict_passed (result : Cmd.TestResult.t) :
  Cmd.TestResult.Passed result = false ->
  Cmd.TestResult.Passed (Cmd.verdict result) = true <->
  Cmd.TestResult.Errors (Cmd.verdict result) = [].
Proof.
  intros Hfalse. unfold Cmd.verdict.
  destruct (Cmd.len (Cmd.TestResult.Errors result) =? 0)%Z eqn:Hlen.
  - apply len_zero in Hlen. cbn. now rewrite Hlen.
  - rewrite Hfalse. split; [discriminate|].
    intros H. apply len_zero in H. congruence.
Qed.

(** C5. Whatever the file system, the engine and the payload give,
    [validateSingleQuery] returns a result whose [Passed] is true exactly
    when its [Errors] is empty. *)
Theorem C5_passed_iff_no_errors :
  forall (w : Cmd.World) (queryPath : string),
    Cmd.TestResult.Passed (validateSingleQuery w queryPath) = true <->
    Cmd.TestResult.Errors (validateSingleQuery w queryPath) = [].
Proof.
  intros w queryPath. unfold Cmd.validateSingleQuery.
  destruct (Cmd.os_ReadFile w queryPath) as [query|err].
  2: { cbn. split; [discriminate|]. intros H. discriminate H. }
  destruct (if Cmd.os_Stat w _ then _ else _) as [variables|err].
  2: { cbn. split; [discriminate|]. intros H. discriminate H. }
  destruct (Cmd.gj_GraphQL w query variables) as [res err].
  apply verdict_passed. now rewrite checks_keep_Passed.
Qed.

Local Abbreviation rangeQueryFiles :=
  (Cmd.rangeQueryFiles fmtV Unmarshal filepath_Base).
Local Abbreviation validateQueries :=
  (Cmd.validateQueries fmtV Unmarshal filepath_Base).

Lemma incr_small (x : Z) : (0 <= x < Cmd.maxInt)%Z -> Cmd.incr x = (x + 1)%Z.
Proof.
  unfold Cmd.incr, Cmd.wrapInt, Cmd.maxInt. intros H.
  rewrite Z.mod_small; lia.
Qed.

Lemma passedIn_app (l1 l2 : list Cmd.TestResult.t) :
  passedIn (l1 ++ l2) = passedIn l1 ++ passedIn l2.
Proof. apply filter_app. Qed.

Lemma failedIn_app (l1 l2 : list Cmd.TestResult.t) :
  failedIn (l1 ++ l2) = failedIn l1 ++ failedIn l2.
Proof. apply filter_app. Qed.

Lemma passed_failed_all (results : list Cmd.TestResult.t) :
  List.length (passedIn results) + List.length (failedIn results) =
  List.length results.
Proof.
  induction results as [|r l IH]; [reflexivity|].
  unfold passedIn, failedIn in *. cbn [filter].
  destruct (Cmd.TestResult.Passed r); cbn [negb List.length]; lia.
Qed.

(** The loop keeps the counters in step with the results, never touches
    [Total], adds at most one result per file, and adds one per file unless
    it stops at a failure under [failFast]. *)
Lemma rangeQueryFiles_counted (failFast : bool) (world : nat -> Cmd.World)
    (queryFiles : list string) :
  forall (k : nat) (summary final : Cmd.ValidationSummary.t),
    (Cmd.len (Cmd.ValidationSummary.Results summary) + Cmd.len queryFiles
       <= Cmd.maxInt)%Z ->
    counted summary ->
    final = rangeQueryFiles failFast world k queryFiles summary ->
    counted final /\
    Cmd.ValidationSummary.Total final = Cmd.ValidationSummary.Total summary /\
    (Cmd.len (Cmd.ValidationSummary.Results final)
       <= Cmd.len (Cmd.ValidationSummary.Results summary) + Cmd.len queryFiles)%Z /\
    (failFast = false \/
     Cmd.ValidationSummary.Failed final = Cmd.ValidationSummary.Failed summary ->
     Cmd.len (Cmd.ValidationSummary.Results final) =
     (Cmd.len (Cmd.ValidationSummary.Results summary) + Cmd.len queryFiles)%Z) /\
    (Cmd.ValidationSummary.Failed summary
       <= Cmd.ValidationSummary.Failed final)%Z.
Proof.
  induction queryFiles as [|qf rest IH]; intros k summary final Hroom Hc ->.
  - cbn. unfold Cmd.len. cbn. split; [exact Hc|]. split; [reflexivity|].
    split; [lia|]. split; [intros _|]; lia.
  - cbn [Cmd.rangeQueryFiles].
    cbn [Cmd.ValidationSummary.Total Cmd.ValidationSummary.Passed
         Cmd.ValidationSummary.Failed Cmd.ValidationSummary.Results].
    set (result := Cmd.validateSingleQuery fmtV Unmarshal filepath_Base (world k) qf).
    pose proof (passed_failed_all (Cmd.ValidationSummary.Results summary)) as Hall.
    assert (Hlen : Cmd.len (qf :: rest) = (Cmd.len rest + 1)%Z).
    { unfold Cmd.len. cbn [List.length]. lia. }
    assert (Hlen' : Cmd.len (Cmd.ValidationSummary.Results summary ++ [result]) =
                    (Cmd.len (Cmd.ValidationSummary.Results summary) + 1)%Z).
    { unfold Cmd.len. rewrite length_app. cbn [List.length]. lia. }
    assert (Hrest : (0 <= Cmd.len rest)%Z) by (unfold Cmd.len; lia).
    destruct Hc as [Hp Hf].
    assert (Hsmall : (0 <= Cmd.ValidationSummary.Passed summary < Cmd.maxInt)%Z /\
                     (0 <= Cmd.ValidationSummary.Failed summary < Cmd.maxInt)%Z).
    { unfold Cmd.len in *. lia. }
    destruct (Cmd.TestResult.Passed result) eqn:Hpassed.
    + match goal with
      | |- context [Cmd.rangeQueryFiles _ _ _ _ _ (S k) rest ?s] =>
          remember (rangeQueryFiles failFast world (S k) rest s) as final eqn:Hfinal;
          destruct (IH (S k) s final) as (Hc' & Ht & Hle & Hfull & Hmono);
            [| |exact Hfinal|]
      end.
      * cbn [Cmd.ValidationSummary.Results]. rewrite Hlen'. lia.
      * split; cbn [Cmd.ValidationSummary.Passed Cmd.ValidationSummary.Failed
                    Cmd.ValidationSummary.Results].
        -- rewrite passedIn_app. unfold passedIn at 2. cbn [filter].
           rewrite Hpassed, incr_small by apply Hsmall.
           unfold Cmd.len in *. rewrite length_app. cbn [List.length]. lia.
        -- rewrite failedIn_app. unfold failedIn at 2. cbn [filter].
           rewrite Hpassed. cbn [negb]. now rewrite app_nil_r.
      * cbn [Cmd.ValidationSummary.Total Cmd.ValidationSummary.Failed
             Cmd.ValidationSummary.Results] in Ht, Hle, Hfull, Hmono.
        rewrite Hlen' in Hle, Hfull.
        split; [exact Hc'|]. split; [exact Ht|]. split; [lia|].
        split; [|exact Hmono].
        intros H. rewrite (Hfull H). lia.
    + assert (Hincr : Cmd.incr (Cmd.ValidationSummary.Failed summary) =
                      (Cmd.ValidationSummary.Failed summary + 1)%Z).
      { apply incr_small, Hsmall. }
      assert (Hcounted : counted
                (Cmd.ValidationSummary.mk (Cmd.ValidationSummary.Total summary)
                   (Cmd.ValidationSummary.Passed summary)
                   (Cmd.incr (Cmd.ValidationSummary.Failed summary))
                   (Cmd.ValidationSummary.Results summary ++ [result]))).
      { split; cbn [Cmd.ValidationSummary.Passed Cmd.ValidationSummary.Failed
                    Cmd.ValidationSummary.Results].
        - rewrite passedIn_app. unfold passedIn at 2. cbn [filter].
          rewrite Hpassed. now rewrite app_nil_r.
        - rewrite failedIn_app. unfold failedIn at 2. cbn [filter].
          rewrite Hpassed, Hincr. cbn [negb].
          unfold Cmd.len in *. rewrite length_app. cbn [List.length]. lia. }
      destruct failFast.
      * cbn [Cmd.ValidationSummary.Total Cmd.ValidationSummary.Results
             Cmd.ValidationSummary.Failed].
        split; [exact Hcounted|].
        rewrite Hlen', Hincr. split; [reflexivity|]. split; [lia|].
        split; [|lia].
        intros [H|H]; [discriminate|lia].
      * match goal with
        | |- context [Cmd.rangeQueryFiles _ _ _ _ _ (S k) rest ?s] =>
            remember (rangeQueryFiles false world (S k) rest s) as final eqn:Hfinal;
            destruct (IH (S k) s final) as (Hc' & Ht & Hle & Hfull & Hmono);
              [|exact Hcounted|exact Hfinal|]
        end.
        -- cbn [Cmd.ValidationSummary.Results]. rewrite Hlen'. lia.
        -- cbn [Cmd.ValidationSummary.Total Cmd.ValidationSummary.Failed
                Cmd.ValidationSummary.Results] in Ht, Hle, Hfull, Hmono.
           rewrite Hlen' in Hle, Hfull. rewrite Hincr in Hmono.
           split; [exact Hc'|]. split; [exact Ht|]. split; [lia|].
           split; [|lia].
           intros _. rewrite Hfull; [lia|now left].
Qed.

Lemma validateQueries_counted (failFast : bool) (world : nat -> Cmd.World)
    (queryFiles : list string) :
  (Cmd.len queryFiles <= Cmd.maxInt)%Z ->
  counted (validateQueries failFast world queryFiles) /\
  Cmd.ValidationSummary.Total (validateQueries failFast world queryFiles) =
    Cmd.len queryFiles /\
  (Cmd.len (Cmd.ValidationSummary.Results (validateQueries failFast world queryFiles))
     <= Cmd.len queryFiles)%Z /\
  (failFast = false \/
   Cmd.ValidationSummary.Failed (validateQueries failFast world queryFiles) = 0%Z ->
   Cmd.len (Cmd.ValidationSummary.Results (validateQueries failFast world queryFiles)) =
   Cmd.len queryFiles).
Proof.
  intros Hroom. unfold Cmd.validateQueries.
  destruct (rangeQueryFiles_counted failFast world queryFiles 0
              (Cmd.ValidationSummary.mk (Cmd.len queryFiles) 0 0 []) _
              Hroom (conj eq_refl eq_refl) eq_refl)
    as (Hc & Ht & Hle & Hfull & _).
  split; [exact Hc|]. split; [exact Ht|]. split; [exact Hle|exact Hfull].
Qed.

(** C4, as the code has it.  In a summary of [validateQueries], [Passed]
    and [Failed] add up to the number of results, [Total] is the number of
    query files, and the results are at most that many; there is one result
    per file, and [Total] is their number, when [failFast] is off or no file
    failed. *)
Theorem C4_summary_counts :
  forall (failFast : bool) (world : nat -> Cmd.World) (queryFiles : list string),
    (Cmd.len queryFiles <= Cmd.maxInt)%Z ->
    (Cmd.ValidationSummary.Passed (validateQueries failFast world queryFiles) +
     Cmd.ValidationSummary.Failed (validateQueries failFast world queryFiles))%Z =
      Cmd.len (Cmd.ValidationSummary.Results (validateQueries failFast world queryFiles)) /\
    Cmd.ValidationSummary.Total (validateQueries failFast world queryFiles) =
      Cmd.len queryFiles /\
    (Cmd.len (Cmd.ValidationSummary.Results (validateQueries failFast world queryFiles))
       <= Cmd.ValidationSummary.Total (validateQueries failFast world queryFiles))%Z /\
    (failFast = false \/
     Cmd.ValidationSummary.Failed (validateQueries failFast world queryFiles) = 0%Z ->
     Cmd.ValidationSummary.Total (validateQueries failFast world queryFiles) =
     Cmd.len (Cmd.ValidationSummary.Results (validateQueries failFast world queryFiles))).
Proof.
  intros failFast world queryFiles Hroom.
  destruct (validateQueries_counted failFast world queryFiles Hroom)
    as ([Hp Hf] & Ht & Hle & Hfull).
  pose proof (passed_failed_all
                (Cmd.ValidationSummary.Results
                   (validateQueries failFast world queryFiles))) as Hall.
  split; [|split; [exact Ht|split]].
  - rewrite Hp, Hf. unfold Cmd.len. lia.
  - now rewrite Ht.
  - intros H. now rewrite Ht, (Hfull H).
Qed.

(** C10. In a summary of [validateQueries], also when [failFast] stopped the
    loop, [Passed] is the number of results that passed, [Failed] the number
    of results that did not, and the two add up to the number of results. *)
Theorem C10_counters_match_results :
  forall (failFast : bool) (world : nat -> Cmd.World) (queryFiles : list string),
    (Cmd.len queryFiles <= Cmd.maxInt)%Z ->
    Cmd.ValidationSummary.Passed (validateQueries failFast world queryFiles) =
      Cmd.len
        (filter Cmd.TestResult.Passed
           (Cmd.ValidationSummary.Results (validateQueries failFast world queryFiles))) /\
    Cmd.ValidationSummary.Failed (validateQueries failFast world queryFiles) =
      Cmd.len
        (filter (fun result => negb (Cmd.TestResult.Passed result))
           (Cmd.ValidationSummary.Results (validateQueries failFast world queryFiles))) /\
    (Cmd.ValidationSummary.Passed (validateQueries failFast world queryFiles) +
     Cmd.ValidationSummary.Failed (validateQueries failFast world queryFiles))%Z =
      Cmd.len (Cmd.ValidationSummary.Results (validateQueries failFast world queryFiles)).
Proof.
  intros failFast world queryFiles Hroom.
  destruct (validateQueries_counted failFast world queryFiles Hroom)
    as ([Hp Hf] & _).
  pose proof (passed_failed_all
                (Cmd.ValidationSummary.Results
                   (validateQueries failFast world queryFiles))) as Hall.
  split; [exact Hp|split; [exact Hf|]].
  rewrite Hp, Hf. unfold Cmd.len. lia.
Qed.

(** The exit code of [main] is 0 when every result passed and 1 otherwise. *)
Lemma exitCodeFrom_passed (results : list Main.TestResult) :
  (forall r, In r results -> Main.Passed r = true) ->
  Main.exitCodeFrom results 0 = 0%Z.
Proof.
  induction results as [|r l IH]; intros Hall; [reflexivity|].
  cbn [Main.exitCodeFrom]. rewrite (Hall r (or_introl eq_refl)). cbn [negb].
  apply IH. intros r' Hin. apply Hall. now right.
Qed.

Lemma exitCodeFrom_failed (results : list Main.TestResult) :
  (exists r, In r results /\ Main.Passed r = false) ->
  Main.exitCodeFrom results 0 = 1%Z.
Proof.
  induction results as [|r l IH]; intros (r' & Hin & Hfailed); [contradiction|].
  cbn [Main.exitCodeFrom]. destruct (Main.Passed r) eqn:Hr; [|reflexivity].
  cbn [negb]. apply IH. exists r'. split; [|exact Hfailed].
  destruct Hin as [->|Hin]; [congruence|exact Hin].
Qed.

Lemma all_passed_or_one_failed (results : list Main.TestResult) :
  (forall r, In r results -> Main.Passed r = true) \/
  (exists r, In r results /\ Main.Passed r = false).
Proof.
  induction results as [|r l [IH|(r' & Hin & Hfailed)]].
  - left. intros r [].
  - destruct (Main.Passed r) eqn:Hr.
    + left. intros r' [<-|Hin]; [exact Hr|now apply IH].
    + right. exists r. split; [now left|exact Hr].
  - right. exists r'. split; [now right|exact Hfailed].
Qed.

Lemma failedError_status (summary : Cmd.ValidationSummary.t) :
  Cmd.exitStatus (Cmd.Execute (Cmd.failedError summary)) =
  if (0 <? Cmd.ValidationSummary.Failed summary)%Z then 1%Z else 0%Z.
Proof.
  unfold Cmd.failedError.
  now destruct (0 <? Cmd.ValidationSummary.Failed summary)%Z.
Qed.


(** C7, as the code has it.  When the configuration cannot be loaded or is
    invalid, or the database cannot be reached, both programs end with
    status 1 whatever the queries would give; 1 is also the status of a run
    in which a validation failed. *)
Theorem C7_setup_failure_exits_with_1 :
  (forall (configPath queriesDir : string) (s : Main.Setup),
      (exists err, Main.loadConfig s configPath = inr err) \/
      (exists err, Main.initializeGraphJin s = Some err) ->
      Main.main configPath queriesDir s = 1%Z) /\
  (forall (cfgFile queriesDir queryFile : string) (failFast : bool)
          (s : Cmd.Setup) (world : nat -> Cmd.World),
      (exists err, Cmd.LoadConfig s cfgFile = inr err) \/
      (exists config err,
          Cmd.LoadConfig s cfgFile = inl config /\
          (Cmd.Validate config = Some err \/
           Cmd.initializeGraphJin s config = Some err)) ->
      Cmd.exitStatus
        (Cmd.Execute
           (Cmd.runValidate fmtV Unmarshal filepath_Base cfgFile queriesDir
              queryFile failFast s world)) = 1%Z) /\
  (forall (results : list Main.TestResult) (r : Main.TestResult),
      In r results -> Main.Passed r = false ->
      Main.exitCodeFrom results 0 = 1%Z) /\
  (forall summary : Cmd.ValidationSummary.t,
      (0 < Cmd.ValidationSummary.Failed summary)%Z ->
      Cmd.exitStatus (Cmd.Execute (Cmd.failedError summary)) = 1%Z).
Proof.
  split; [|split; [|split]].
  - intros configPath queriesDir s [(err & Hload)|(err & Hinit)];
      unfold Main.main.
    + now rewrite Hload.
    + rewrite Hinit. now destruct (Main.loadConfig s configPath).
  - intros cfgFile queriesDir queryFile failFast s world
      [(err & Hload)|(config & err & Hload & [Hvalid|Hinit])];
      unfold Cmd.runValidate; rewrite Hload.
    + reflexivity.
    + now rewrite Hvalid.
    + rewrite Hinit. now destruct (Cmd.Validate config).
  - intros results r Hin Hfailed. apply exitCodeFrom_failed. now exists r.
  - intros summary Hpos. rewrite failedError_status.
    apply Z.ltb_lt in Hpos. now rewrite Hpos.
Qed.

(** What each check adds to the messages; the verdict adds nothing. *)
Lemma len_positive {A : Type} (l : list A) :
  (0 <? Cmd.len l)%Z = false -> l = [].
Proof. now destruct l. Qed.

Lemma checkExecution_errors (err : option string) (result : Cmd.TestResult.t) :
  Cmd.TestResult.Errors (Cmd.checkExecution err result) =
  Cmd.TestResult.Errors result ++
  match err with
  | Some err => ["Execution error: " +s+ err]
  | None => []
  end.
Proof. destruct err; cbn; [reflexivity|now rewrite app_nil_r]. Qed.

Lemma checkResponse_errors (res : option Cmd.Result.t) (result : Cmd.TestResult.t) :
  Cmd.TestResult.Errors (Cmd.checkResponse res result) =
  Cmd.TestResult.Errors result ++
  match res with
  | Some res => map Cmd.Message (Cmd.Result.Errors res)
  | None => []
  end.
Proof.
  destruct res as [res|]; cbn [Cmd.checkResponse]; [|now rewrite app_nil_r].
  destruct (0 <? Cmd.len (Cmd.Result.Errors res))%Z eqn:Hlen; [reflexivity|].
  rewrite (len_positive _ Hlen). cbn. now rewrite app_nil_r.
Qed.

Lemma checkData_errors (w : Cmd.World) (res : option Cmd.Result.t)
    (result : Cmd.TestResult.t) :
  Cmd.TestResult.Errors (Cmd.checkData fmtV Unmarshal w res result) =
  Cmd.TestResult.Errors result ++
  match res with
  | Some res =>
      if (0 <? Cmd.lenBytes (Cmd.Result.Data res))%Z
      then Cmd.findNestedErrors (Cmd.mapOrder w) fmtV Unmarshal (Cmd.Result.Data res)
      else []
  | None => []
  end.
Proof.
  destruct res as [res|]; cbn [Cmd.checkData]; [|now rewrite app_nil_r].
  destruct (0 <? Cmd.lenBytes (Cmd.Result.Data res))%Z; [|now rewrite app_nil_r].
  destruct (0 <? Cmd.len _)%Z eqn:Hlen; [reflexivity|].
  rewrite (len_positive _ Hlen). now rewrite app_nil_r.
Qed.

Lemma verdict_errors (result : Cmd.TestResult.t) :
  Cmd.TestResult.Errors (Cmd.verdict result) = Cmd.TestResult.Errors result.
Proof.
  unfold Cmd.verdict.
  now destruct (Cmd.len (Cmd.TestResult.Errors result) =? 0)%Z.
Qed.

(** When the query and its variables are read, the messages of a result are
    the execution error, then the errors of the response, then the errors
    nested in its data. *)
Lemma validateSingleQuery_errors (w : Cmd.World) (queryPath query variables : string)
    (res : option Cmd.Result.t) (err : option string) :
  Cmd.os_ReadFile w queryPath = inl query ->
  (if Cmd.os_Stat w (Cmd.TrimSuffix queryPath ".graphql" +s+ ".json")
   then Cmd.os_ReadFile w (Cmd.TrimSuffix queryPath ".graphql" +s+ ".json")
   else inl "{}") = inl variables ->
  Cmd.gj_GraphQL w query variables = (res, err) ->
  Cmd.TestResult.Errors (validateSingleQuery w queryPath) =
    match err with
    | Some err => ["Execution error: " +s+ err]
    | None => []
    end ++
    match res with
    | Some res => map Cmd.Message (Cmd.Result.Errors res)
    | None => []
    end ++
    match res with
    | Some res =>
        if (0 <? Cmd.lenBytes (Cmd.Result.Data res))%Z
        then Cmd.findNestedErrors (Cmd.mapOrder w) fmtV Unmarshal (Cmd.Result.Data res)
        else []
    | None => []
    end.
Proof.
  intros Hquery Hvars Hrun. unfold Cmd.validateSingleQuery.
  rewrite Hquery, Hvars, Hrun.
  rewrite verdict_errors, checkData_errors, checkResponse_errors,
    checkExecution_errors.
  cbn [Cmd.setDuration Cmd.TestResult.Errors app].
  now rewrite <- app_assoc.
Qed.

End RunnerFacts.

(** C4 does not hold as the specification states it: with two query files,
    [--fail-fast] and a first file that fails, the summary has [Total] 2 and
    a single result. *)
Lemma C4_counterexample :
  Cmd.ValidationSummary.Total stoppedEarly = 2%Z /\
  (Cmd.ValidationSummary.Passed stoppedEarly +
   Cmd.ValidationSummary.Failed stoppedEarly)%Z = 1%Z /\
  Cmd.len (Cmd.ValidationSummary.Results stoppedEarly) = 1%Z.
Proof. repeat split. Qed.

Lemma two_files_fit : (Cmd.len ["a.graphql"; "b.graphql"] <= Cmd.maxInt)%Z.
Proof. unfold Cmd.len, Cmd.maxInt. cbn. lia. Defined.

Lemma C4_witness :
  (Cmd.ValidationSummary.Passed stoppedEarly +
   Cmd.ValidationSummary.Failed stoppedEarly)%Z =
    Cmd.len (Cmd.ValidationSummary.Results stoppedEarly) /\
  (Cmd.len (Cmd.ValidationSummary.Results stoppedEarly)
     <= Cmd.ValidationSummary.Total stoppedEarly)%Z.
Proof.
  destruct (C4_summary_counts printV refuseAll baseOfName true
              (fun _ => unreadable) ["a.graphql"; "b.graphql"] two_files_fit)
    as (Hsum & _ & Hle & _).
  split; [exact Hsum|exact Hle].
Defined.

Lemma C10_witness :
  Cmd.ValidationSummary.Failed stoppedEarly =
    Cmd.len
      (filter (fun result => negb (Cmd.TestResult.Passed result))
         (Cmd.ValidationSummary.Results stoppedEarly)).
Proof.
  apply (C10_counters_match_results printV refuseAll baseOfName true
           (fun _ => unreadable) ["a.graphql"; "b.graphql"] two_files_fit).
Defined.


(** C7 does not hold as the specification states it: a missing
    configuration file and a database that does not answer end both programs
    with status 1, the status of a run with a failed validation. *)
Lemma C7_counterexample :
  Main.main "config.yaml" "./queries" mainNoConfig = 1%Z /\
  Main.main "config.yaml" "./queries" mainNoDatabase = 1%Z /\
  Main.main "config.yaml" "./queries" mainReady = 1%Z /\
  Cmd.exitStatus
    (Cmd.Execute
       (Cmd.runValidate printV refuseAll baseOfName "config.yaml" "./queries" ""
          false noConfig (fun _ => unreadable))) = 1%Z /\
  Cmd.exitStatus
    (Cmd.Execute
       (Cmd.runValidate printV refuseAll baseOfName "config.yaml" "./queries" ""
          false noDatabase (fun _ => unreadable))) = 1%Z /\
  Cmd.exitStatus
    (Cmd.Execute
       (Cmd.runValidate printV refuseAll baseOfName "config.yaml" "./queries" ""
          false ready (fun _ => unreadable))) = 1%Z.
Proof. repeat split. Qed.

Lemma C7_witness :
  Main.main "config.yaml" "./queries" mainNoDatabase = 1%Z /\
  Cmd.exitStatus
    (Cmd.Execute
       (Cmd.runValidate printV refuseAll baseOfName "config.yaml" "./queries" ""
          false noDatabase (fun _ => healthy))) = 1%Z.
Proof.
  destruct (C7_setup_failure_exits_with_1 printV refuseAll baseOfName)
    as (Hmain & Hcmd & _).
  split.
  - apply Hmain. right. now exists "failed to ping database".
  - apply Hcmd. right. exists aConfig, "failed to ping database".
    split; [reflexivity|now right].
Defined.

(* ================================================================== *)
(** ** The two scanners side by side *)

Section TwoScanners.

(** The runtime of the stand-alone validator. *)
Variable rangeOrder : nat -> nat -> list nat.

Local Abbreviation check := (Main.checkForErrors rangeOrder).
Local Abbreviation probe := (probeAt rangeOrder).

(** The two loops of [checkForErrors]. *)
Lemma checkForErrors_map (v : list (string * value)) (k : nat) :
  check (VMap v) k =
  if errorsFlag v then (true, k)
  else if errorFlag v then (true, k)
  else rangeProbe rangeOrder v (rangeOrder k (List.length v)) (S k).
Proof.
  cbn [Main.checkForErrors]. unfold errorsFlag, errorFlag.
  destruct (match lookup "errors" v with Some VNil => false | Some _ => true | None => false end);
    [reflexivity|].
  destruct (match lookup "error" v with
            | Some VNil => false
            | Some (VString errorVal) => negb (errorVal =? "")%string
            | Some _ => true
            | None => false
            end); [reflexivity|].
  generalize (S k). generalize (rangeOrder k (List.length v)).
  intros order; induction order as [|pos order IH]; intros k'; [reflexivity|].
  cbn [rangeProbe].
  replace (probe v k' pos) with
    ((fix entry (l : list (string * value)) (n : nat) {struct l} : bool * nat :=
        match l with
        | [] => (false, k')
        | (_, value) :: l' =>
            match n with
            | 0 => check value k'
            | S n' => entry l' n'
            end
        end) v pos).
  - destruct (_ v pos) as [found k'']. destruct found; [reflexivity|apply IH].
  - unfold probeAt. clear IH. revert pos.
    induction v as [|[key x] l IHl]; intros [|n]; try reflexivity.
    cbn [nth_error]. apply IHl.
Qed.

Lemma checkForErrors_slice (v : list value) (k : nat) :
  check (VSlice v) k = rangeItems rangeOrder v k.
Proof.
  cbn [Main.checkForErrors]. revert k.
  induction v as [|item l IH]; intros k; [reflexivity|].
  cbn [rangeItems]. destruct (check item k) as [found k'].
  destruct found; [reflexivity|apply IH].
Qed.

(** A loop that comes to a position where the probe answers yes answers
    yes. *)
Lemma rangeProbe_hits (v : list (string * value)) (pos : nat) (order : list nat) :
  In pos order ->
  (forall k, fst (probe v k pos) = true) ->
  forall k, fst (rangeProbe rangeOrder v order k) = true.
Proof.
  intros Hin Hpos. induction order as [|pos0 order IH]; intros k; [contradiction|].
  cbn [rangeProbe]. destruct (probe v k pos0) as [found k'] eqn:Hprobe.
  destruct found; [reflexivity|].
  destruct Hin as [->|Hin]; [|now apply IH].
  specialize (Hpos k). rewrite Hprobe in Hpos. discriminate.
Qed.

Lemma flagged_entry (v : list (string * value)) :
  (fix any (l : list (string * value)) : bool :=
     match l with
     | [] => false
     | (_, value) :: l' => flagged value || any l'
     end) v = true ->
  exists pos key x,
    nth_error v pos = Some (key, x) /\ flagged x = true.
Proof.
  induction v as [|[key x] l IH]; intros H; [discriminate|].
  apply orb_true_iff in H. destruct H as [H|H].
  - exists 0, key, x. now split.
  - destruct (IH H) as (pos & key' & x' & Hnth & Hx).
    exists (S pos), key', x'. now split.
Qed.

Hypothesis rangeOrder_ok : forall k n, visits_each_once (rangeOrder k n) n.

(** [checkForErrors] answers yes on every value with a flagged map. *)
Lemma flagged_checkForErrors (data : value) :
  flagged data = true -> forall k, fst (check data k) = true.
Proof.
  induction data as [| | | |items IH|entries IH] using value_ind;
    intros Hflag k; try discriminate.
  - rewrite checkForErrors_slice. revert k. cbn [flagged] in Hflag.
    induction IH as [|item l Hitem _ IHl]; intros k; [discriminate|].
    cbn [rangeItems]. destruct (check item k) as [found k'] eqn:Hcheck.
    destruct found; [reflexivity|].
    apply orb_true_iff in Hflag. destruct Hflag as [Hflag|Hflag].
    + specialize (Hitem Hflag k). rewrite Hcheck in Hitem. discriminate.
    + now apply IHl.
  - rewrite checkForErrors_map. cbn [flagged] in Hflag.
    destruct (errorsFlag entries); [reflexivity|].
    destruct (errorFlag entries); [reflexivity|].
    cbn [orb] in Hflag.
    destruct (flagged_entry entries Hflag) as (pos & key & x & Hnth & Hx).
    apply (rangeProbe_hits entries pos).
    + apply (Permutation_in pos (Permutation_sym (rangeOrder_ok k (List.length entries)))).
      apply in_seq. split; [lia|]. cbn.
      apply nth_error_Some. now rewrite Hnth.
    + intros k'. unfold probeAt. rewrite Hnth.
      rewrite Forall_forall in IH.
      apply (IH (key, x) (nth_error_In _ _ Hnth) Hx).
Qed.

End TwoScanners.

(** A value with no flagged map has no finding. *)
Lemma unflagged_keyFindings (fmtV : value -> string) (v : list (string * value))
    (path : string) :
  errorsFlag v = false -> errorFlag v = false -> keyFindings fmtV v path = [].
Proof.
  unfold errorsFlag, errorFlag, keyFindings, Cmd.checkErrorKey, Cmd.checkErrorsKey.
  intros Herrors Herror.
  destruct (lookup "errors" v) as [[| | | | |]|]; try discriminate;
    destruct (lookup "error" v) as [[| | |errStr| |]|]; try discriminate;
    try reflexivity; now rewrite Herror.
Qed.

Lemma unflagged_findings (fmtV : value -> string) (data : value) :
  flagged data = false -> forall path, findings fmtV data path = [].
Proof.
  induction data as [| | | |items IH|entries IH] using value_ind;
    intros Hflag path; try reflexivity.
  - rewrite findings_slice. generalize 0. cbn [flagged] in Hflag.
    induction IH as [|item l Hitem _ IHl]; intros i; [reflexivity|].
    apply orb_false_iff in Hflag. destruct Hflag as [Hflag Hrest].
    cbn [sliceFindings]. now rewrite (Hitem Hflag), (IHl Hrest).
  - rewrite findings_map. cbn [flagged] in Hflag.
    apply orb_false_iff in Hflag. destruct Hflag as [Hkeys Hrest].
    apply orb_false_iff in Hkeys. destruct Hkeys as [Herrors Herror].
    rewrite (unflagged_keyFindings fmtV entries path Herrors Herror).
    cbn [app]. clear Herrors Herror.
    induction IH as [|[key x] l Hx _ IHl]; [reflexivity|].
    apply orb_false_iff in Hrest. destruct Hrest as [Hflag Hrest].
    cbn [mapFindings]. cbn [snd] in Hx. now rewrite (Hx Hflag), (IHl Hrest).
Qed.

(** C9, as the code has it.  On a payload that is not a JSON array, when
    [findNestedErrors] returns a message, [hasNestedErrors] returns true. *)
Theorem C9_findings_imply_flag :
  forall (cmdOrder mainOrder : nat -> nat -> list nat) (fmtV : value -> string)
         (Unmarshal : string -> option value) (data : string),
    (forall k n, visits_each_once (cmdOrder k n) n) ->
    (forall k n, visits_each_once (mainOrder k n) n) ->
    (forall items, Unmarshal data <> Some (VSlice items)) ->
    Cmd.findNestedErrors cmdOrder fmtV Unmarshal data <> [] ->
    Main.hasNestedErrors mainOrder Unmarshal data = true.
Proof.
  intros cmdOrder mainOrder fmtV Unmarshal data Hcmd Hmain Hshape Hfound.
  unfold Cmd.findNestedErrors in Hfound.
  unfold Main.hasNestedErrors, Main.UnmarshalMap.
  destruct (String.length data =? 0); [now contradiction Hfound|].
  destruct (Unmarshal data) as [result|]; [|now contradiction Hfound].
  destruct result as [| | | |items|entries];
    try (now contradiction Hfound); [now contradiction (Hshape items)|].
  apply (flagged_checkForErrors mainOrder Hmain).
  destruct (flagged (VMap entries)) eqn:Hflag; [reflexivity|].
  contradiction Hfound.
  rewrite (collect_quiet cmdOrder fmtV Hcmd); [reflexivity|].
  now apply unflagged_findings.
Qed.

(** C9 does not hold as it is stated: on the payload [{"errors":[]}] [hasNestedErrors]
    returns true and [findNestedErrors] returns no message. *)
Lemma C9_counterexample :
  Main.hasNestedErrors inOrder decodeSamples emptyErrorsPayload = true /\
  Cmd.findNestedErrors inOrder printV decodeSamples emptyErrorsPayload = [].
Proof. split; reflexivity. Qed.

(** On a payload that is an array the agreement is lost in the other
    direction: [hasNestedErrors] decodes into a map and gives up. *)
Example array_payload_not_flagged :
  Main.hasNestedErrors inOrder decodeSamples arrayPayload = false /\
  Cmd.findNestedErrors inOrder printV decodeSamples arrayPayload =
    ["Error at [0]: bad"].
Proof. split; reflexivity. Qed.

Lemma C9_witness :
  Cmd.findNestedErrors inOrder printV decodeSamples badPayload =
    ["Error at root: bad"] /\
  Main.hasNestedErrors reversed decodeSamples badPayload = true.
Proof.
  split; [reflexivity|].
  apply (C9_findings_imply_flag inOrder reversed printV decodeSamples badPayload
           inOrder_ok reversed_ok); discriminate.
Defined.

(* ================================================================== *)
(** ** More on the scanner of the validate command *)

Section ScannerMore.

Variable rangeOrder : nat -> nat -> list nat.
Variable fmtV : value -> string.

Local Abbreviation collect := (Cmd.collectErrors rangeOrder fmtV).
Local Abbreviation visit := (visitAt rangeOrder fmtV).
Local Abbreviation slice := (rangeSlice rangeOrder fmtV).

(** [headed out]: every message of [out] starts with [Error at ]. *)
Local Abbreviation headed out :=
  (Forall (fun msg => String.prefix "Error at " msg = true) out).

Lemma Error_at_prefix (rest : string) :
  String.prefix "Error at " ("Error at " +s+ rest) = true.
Proof. cbn. now destruct rest. Qed.

Lemma rangeErrArray_headed (errArray : list value) (path : string) :
  forall i : nat,
  headed (Cmd.errors (Cmd.rangeErrArray fmtV errArray i (Cmd.mkState [] 0) path)).
Proof.
  induction errArray as [|e rest IH]; intros i; [constructor|].
  cbn [Cmd.rangeErrArray]. rewrite rangeErrArray_app. cbn [Cmd.errors].
  apply Forall_app. split; [|apply IH].
  destruct e as [| | | | |errMap]; try constructor.
  cbn [Cmd.errArrayTurn].
  destruct (lookup "message" errMap) as [[| | |msg| |]|];
    repeat constructor; apply Error_at_prefix.
Qed.

Lemma keyFindings_headed (v : list (string * value)) (path : string) :
  headed (keyFindings fmtV v path).
Proof.
  unfold keyFindings. rewrite checkErrorKey_app. cbn [Cmd.errors].
  apply Forall_app. split.
  - unfold Cmd.checkErrorsKey.
    destruct (lookup "errors" v) as [[| | | |errArray|]|]; try constructor.
    destruct (0 <? List.length errArray); [|constructor].
    apply rangeErrArray_headed.
  - unfold Cmd.checkErrorKey.
    destruct (lookup "error" v) as [[| | |errStr| |errMap]|]; try constructor.
    + destruct (negb (errStr =? "")%string); repeat constructor;
        apply Error_at_prefix.
    + destruct (lookup "message" errMap) as [[| | |msg| |]|];
        repeat constructor; apply Error_at_prefix.
Qed.

(** What a run adds, whatever orders the runtime takes: the list it was given
    stays in front, and what follows are messages of the scanner. *)
Lemma collect_extends (data : value) :
  forall (st : Cmd.state) (path : string),
  exists out,
    Cmd.errors (collect data st path) = Cmd.errors st ++ out /\ headed out.
Proof.
  induction data as [| | | |items IH|entries IH] using value_ind;
    intros st path;
    try (exists []; split; [cbn; now rewrite app_nil_r|constructor]).
  - rewrite collectErrors_slice. generalize 0. revert st.
    induction IH as [|item l Hitem _ IHl]; intros st i.
    + exists []. split; [cbn; now rewrite app_nil_r|constructor].
    + cbn [rangeSlice].
      destruct (Hitem st (Cmd.indexPath path i)) as (o & Ho & Hhead).
      destruct (IHl (collect item st (Cmd.indexPath path i)) (S i))
        as (out & Hout & Hheads).
      exists (o ++ out). split.
      * now rewrite Hout, Ho, app_assoc.
      * apply Forall_app. now split.
  - rewrite collectErrors_map, checks_app. cbn [Cmd.errors Cmd.ranges].
    assert (Hfold : forall order s, exists out,
              Cmd.errors (fold_left (visit entries path) order s) =
                Cmd.errors s ++ out /\ headed out).
    { intros order. induction order as [|pos order IHo]; intros s.
      - exists []. split; [cbn; now rewrite app_nil_r|constructor].
      - cbn [fold_left].
        destruct (IHo (visit entries path s pos)) as (out & Hout & Hheads).
        assert (Hpos : exists o,
                  Cmd.errors (visit entries path s pos) = Cmd.errors s ++ o /\
                  headed o).
        { unfold visitAt.
          destruct (nth_error entries pos) as [[key x]|] eqn:Hnth.
          - apply nth_error_In in Hnth. rewrite Forall_forall in IH.
            apply (IH _ Hnth).
          - exists []. split; [now rewrite app_nil_r|constructor]. }
        destruct Hpos as (o & Ho & Hhead).
        exists (o ++ out). split.
        + now rewrite Hout, Ho, app_assoc.
        + apply Forall_app. now split. }
    destruct (Hfold (rangeOrder (Cmd.ranges st) (List.length entries))
                (Cmd.mkState (Cmd.errors st ++ keyFindings fmtV entries path)
                   (S (Cmd.ranges st)))) as (out & Hout & Hheads).
    exists (keyFindings fmtV entries path ++ out). split.
    + rewrite Hout. cbn [Cmd.errors]. now rewrite app_assoc.
    + apply Forall_app. split; [apply keyFindings_headed|exact Hheads].
Qed.

(** X1. [collectErrors] only appends: whatever the value, the path and the
    orders the runtime takes over the maps, the messages the list held
    before the call are the first messages of the list after it, in the same
    order. *)
Theorem X1_collectErrors_only_appends :
  forall (data : value) (st : Cmd.state) (path : string),
    firstn (List.length (Cmd.errors st)) (Cmd.errors (collect data st path)) =
      Cmd.errors st /\
    List.length (Cmd.errors st) <= List.length (Cmd.errors (collect data st path)).
Proof.
  intros data st path.
  destruct (collect_extends data st path) as (out & -> & _). split.
  - rewrite firstn_app, Nat.sub_diag, firstn_all. cbn. now rewrite app_nil_r.
  - rewrite length_app. lia.
Qed.

(** X2. Every message [collectErrors] adds to the list starts with
    [Error at ], whatever the value and the path. *)
Theorem X2_messages_start_with_Error_at :
  forall (data : value) (k : nat) (path msg : string),
    In msg (Cmd.errors (collect data (Cmd.mkState [] k) path)) ->
    String.prefix "Error at " msg = true.
Proof.
  intros data k path msg Hin.
  destruct (collect_extends data (Cmd.mkState [] k) path) as (out & Hout & Hheads).
  rewrite Hout in Hin. cbn in Hin.
  rewrite Forall_forall in Hheads. now apply Hheads.
Qed.

Lemma fold_visit_extends (v : list (string * value)) (path : string)
    (order : list nat) :
  forall s : Cmd.state,
  exists out,
    Cmd.errors (fold_left (visit v path) order s) = Cmd.errors s ++ out.
Proof.
  induction order as [|pos order IH]; intros s.
  - exists []. cbn. now rewrite app_nil_r.
  - cbn [fold_left].
    destruct (IH (visit v path s pos)) as (out & Hout).
    assert (Hpos : exists o,
              Cmd.errors (visit v path s pos) = Cmd.errors s ++ o).
    { unfold visitAt. destruct (nth_error v pos) as [[key x]|].
      - destruct (collect_extends x s (Cmd.keyPath path key)) as (o & Ho & _).
        now exists o.
      - exists []. now rewrite app_nil_r. }
    destruct Hpos as (o & Ho). exists (o ++ out).
    now rewrite Hout, Ho, app_assoc.
Qed.

(** The findings of the two checks of a map are in the list after the run
    over the map, whatever orders the runtime takes. *)
Lemma keyFindings_in_run (v : list (string * value)) (st : Cmd.state)
    (path msg : string) :
  In msg (keyFindings fmtV v path) ->
  In msg (Cmd.errors (collect (VMap v) st path)).
Proof.
  intros Hin. rewrite collectErrors_map, checks_app. cbn [Cmd.errors Cmd.ranges].
  destruct (fold_visit_extends v path (rangeOrder (Cmd.ranges st) (List.length v))
              (Cmd.mkState (Cmd.errors st ++ keyFindings fmtV v path)
                 (S (Cmd.ranges st)))) as (out & ->).
  cbn [Cmd.errors]. apply in_or_app. left. apply in_or_app. now right.
Qed.

(** X3. The check of the [error] key: a string that is not empty, and a map
    with a string under [message], give [Error at <location>: <text>] in
    every run over the map, with [root] for the empty path; every other
    value under [error] adds nothing. *)
Theorem X3_error_key_rule :
  (forall (v : list (string * value)) (errStr : string)
          (st : Cmd.state) (path : string),
      lookup "error" v = Some (VString errStr) ->
      errStr <> "" ->
      In ("Error at " +s+ (if String.eqb path "" then "root" else path) +s+ ": "
          +s+ errStr)
         (Cmd.errors (collect (VMap v) st path))) /\
  (forall (v errMap : list (string * value)) (msg : string)
          (st : Cmd.state) (path : string),
      lookup "error" v = Some (VMap errMap) ->
      lookup "message" errMap = Some (VString msg) ->
      In ("Error at " +s+ (if String.eqb path "" then "root" else path) +s+ ": "
          +s+ msg)
         (Cmd.errors (collect (VMap v) st path))) /\
  (forall (v : list (string * value)) (x : value) (st : Cmd.state) (path : string),
      lookup "error" v = Some x ->
      (forall errStr, x = VString errStr -> errStr = "") ->
      (forall errMap msg,
          x = VMap errMap -> lookup "message" errMap <> Some (VString msg)) ->
      Cmd.checkErrorKey v st path = st).
Proof.
  split; [|split].
  - intros v errStr st path Hv Hne. apply keyFindings_in_run.
    unfold keyFindings. rewrite checkErrorKey_app. cbn [Cmd.errors].
    apply in_or_app. right. unfold Cmd.checkErrorKey. rewrite Hv.
    apply String.eqb_neq in Hne. rewrite Hne. cbn. now left.
  - intros v errMap msg st path Hv Hmsg. apply keyFindings_in_run.
    unfold keyFindings. rewrite checkErrorKey_app. cbn [Cmd.errors].
    apply in_or_app. right. unfold Cmd.checkErrorKey. rewrite Hv, Hmsg.
    cbn. now left.
  - intros v x st path Hv Hstr Hmap. unfold Cmd.checkErrorKey. rewrite Hv.
    destruct x as [| | |errStr| |errMap]; try reflexivity.
    + now rewrite (Hstr errStr eq_refl).
    + destruct (lookup "message" errMap) as [[| | |msg| |]|] eqn:Hmsg;
        try reflexivity.
      now contradiction (Hmap errMap msg eq_refl).
Qed.

(** X4. A map reports its own findings before those nested in it: the list
    the two checks of the map leave is the beginning of the list after the
    run over the map, whatever orders the runtime takes. *)
Theorem X4_own_findings_come_first :
  forall (v : list (string * value)) (st : Cmd.state) (path : string),
    firstn
      (List.length
         (Cmd.errors
            (Cmd.checkErrorKey v (Cmd.checkErrorsKey fmtV v st path) path)))
      (Cmd.errors (collect (VMap v) st path)) =
    Cmd.errors (Cmd.checkErrorKey v (Cmd.checkErrorsKey fmtV v st path) path).
Proof.
  intros v st path. rewrite collectErrors_map.
  destruct (fold_visit_extends v path
              (rangeOrder
                 (Cmd.ranges
                    (Cmd.checkErrorKey v (Cmd.checkErrorsKey fmtV v st path) path))
                 (List.length v))
              (Cmd.mkState
                 (Cmd.errors
                    (Cmd.checkErrorKey v (Cmd.checkErrorsKey fmtV v st path) path))
                 (S (Cmd.ranges
                       (Cmd.checkErrorKey v (Cmd.checkErrorsKey fmtV v st path)
                          path))))) as (out & ->).
  cbn [Cmd.errors].
  rewrite firstn_app, Nat.sub_diag, firstn_all. cbn. now rewrite app_nil_r.
Qed.

Hypothesis rangeOrder_ok : forall k n, visits_each_once (rangeOrder k n) n.

Lemma entry_in_mapFindings (v : list (string * value)) (path : string) :
  forall (pos : nat) (key : string) (x : value) (msg : string),
    nth_error v pos = Some (key, x) ->
    In msg (findings fmtV x (Cmd.keyPath path key)) ->
    In msg (mapFindings fmtV v path).
Proof.
  induction v as [|[key0 x0] l IH]; intros [|pos] key x msg Hnth Hin;
    try discriminate; cbn [mapFindings]; apply in_or_app.
  - injection Hnth as -> ->. now left.
  - right. now apply (IH pos key x).
Qed.

Lemma item_in_sliceFindings (items : list value) (path : string) :
  forall (i j : nat) (x : value) (msg : string),
    nth_error items j = Some x ->
    In msg (findings fmtV x (Cmd.indexPath path (i + j))) ->
    In msg (sliceFindings fmtV items i path).
Proof.
  induction items as [|x0 l IH]; intros i [|j] x msg Hnth Hin;
    try discriminate; cbn [sliceFindings]; apply in_or_app.
  - injection Hnth as ->. rewrite Nat.add_0_r in Hin. now left.
  - right. apply (IH (S i) j x); [exact Hnth|].
    now rewrite Nat.add_succ_comm.
Qed.

Lemma run_findings (data : value) (k : nat) (path msg : string) :
  In msg (Cmd.errors (collect data (Cmd.mkState [] k) path)) <->
  In msg (findings fmtV data path).
Proof.
  destruct (collect_adds rangeOrder fmtV rangeOrder_ok data (Cmd.mkState [] k) path)
    as (out & Hout & Hperm).
  rewrite Hout. cbn [Cmd.errors app]. split; intros Hin.
  - now apply (Permutation_in msg Hperm).
  - now apply (Permutation_in msg (Permutation_sym Hperm)).
Qed.

(** X5. The walk reaches every entry of a map and every element of a slice:
    what a run over the value stored under [key] adds at the path extended
    by [key], and what a run over the element at index [i] adds at the path
    extended by [[i]], is added by the run over the map or the slice. *)
Theorem X5_nested_findings_are_reported :
  (forall (v : list (string * value)) (pos : nat) (key : string) (x : value)
          (st : Cmd.state) (k : nat) (path msg : string),
      nth_error v pos = Some (key, x) ->
      In msg
        (Cmd.errors
           (collect x (Cmd.mkState [] k)
              (if negb (String.eqb path "") then path +s+ "." +s+ key else key))) ->
      In msg (Cmd.errors (collect (VMap v) st path))) /\
  (forall (items : list value) (i : nat) (x : value)
          (st : Cmd.state) (k : nat) (path msg : string),
      nth_error items i = Some x ->
      In msg
        (Cmd.errors
           (collect x (Cmd.mkState [] k) (path +s+ "[" +s+ fmt_d i +s+ "]"))) ->
      In msg (Cmd.errors (collect (VSlice items) st path))).
Proof.
  split.
  - intros v pos key x st k path msg Hnth Hin.
    apply run_findings in Hin.
    destruct (collect_adds rangeOrder fmtV rangeOrder_ok (VMap v) st path)
      as (out & -> & Hperm).
    apply in_or_app. right.
    apply (Permutation_in msg (Permutation_sym Hperm)).
    rewrite findings_map. apply in_or_app. right.
    now apply (entry_in_mapFindings v path pos key x).
  - intros items i x st k path msg Hnth Hin.
    assert (Hpath : path +s+ "[" +s+ fmt_d i +s+ "]" = Cmd.indexPath path i).
    { unfold Cmd.indexPath. destruct (path =? "")%string eqn:Hp; [|reflexivity].
      apply String.eqb_eq in Hp. now subst. }
    rewrite Hpath in Hin. apply run_findings in Hin.
    destruct (collect_adds rangeOrder fmtV rangeOrder_ok (VSlice items) st path)
      as (out & -> & Hperm).
    apply in_or_app. right.
    apply (Permutation_in msg (Permutation_sym Hperm)).
    rewrite findings_slice.
    now apply (item_in_sliceFindings items path 0 i x).
Qed.

End ScannerMore.

(* ================================================================== *)
(** ** More on the scanner of the stand-alone validator *)

Lemma flagged_nth (v : list (string * value)) (pos : nat) (key : string)
    (x : value) :
  nth_error v pos = Some (key, x) ->
  flagged x = true ->
  flagged (VMap v) = true.
Proof.
  intros Hnth Hx. cbn [flagged].
  apply orb_true_iff. right. revert pos Hnth.
  induction v as [|[key0 x0] l IH]; intros [|pos] Hnth; try discriminate.
  - injection Hnth as -> ->. now rewrite Hx.
  - rewrite (IH pos Hnth). apply orb_true_r.
Qed.

(** When [checkForErrors] answers yes, some map of the value is flagged,
    whatever orders the runtime takes. *)
Lemma checkForErrors_flagged (rangeOrder : nat -> nat -> list nat) (data : value) :
  forall k, fst (Main.checkForErrors rangeOrder data k) = true -> flagged data = true.
Proof.
  induction data as [| | | |items IH|entries IH] using value_ind;
    intros k Hyes; try discriminate.
  - rewrite checkForErrors_slice in Hyes. cbn [flagged]. revert k Hyes.
    induction IH as [|item l Hitem _ IHl]; intros k Hyes; [discriminate|].
    cbn [rangeItems] in Hyes.
    destruct (Main.checkForErrors rangeOrder item k) as [found k'] eqn:Hcheck.
    destruct found.
    + rewrite (Hitem k); [reflexivity|now rewrite Hcheck].
    + rewrite (IHl k' Hyes). apply orb_true_r.
  - rewrite checkForErrors_map in Hyes.
    destruct (errorsFlag entries) eqn:Herrors;
      [cbn [flagged]; now rewrite Herrors|].
    destruct (errorFlag entries) eqn:Herror;
      [cbn [flagged]; rewrite Herror; now rewrite orb_true_r|].
    revert Hyes. generalize (S k).
    generalize (rangeOrder k (List.length entries)).
    intros order. induction order as [|pos order IHo]; intros k' Hyes;
      [discriminate|].
    cbn [rangeProbe] in Hyes.
    destruct (probeAt rangeOrder entries k' pos) as [found k''] eqn:Hprobe.
    destruct found; [|now apply (IHo k'')].
    unfold probeAt in Hprobe.
    destruct (nth_error entries pos) as [[key x]|] eqn:Hnth; [|discriminate].
    apply (flagged_nth entries pos key x Hnth).
    rewrite Forall_forall in IH.
    apply (IH (key, x) (nth_error_In _ _ Hnth) k'). cbn [snd].
    now rewrite Hprobe.
Qed.

(** X6. The answer of [checkForErrors] does not depend on the orders the
    runtime takes over the maps, nor on how many map loops ran before: two
    runs on the same value give the same answer. *)
Theorem X6_checkForErrors_answer_is_stable :
  forall (o1 o2 : nat -> nat -> list nat),
    (forall k n, visits_each_once (o1 k n) n) ->
    (forall k n, visits_each_once (o2 k n) n) ->
    forall (data : value) (k1 k2 : nat),
      fst (Main.checkForErrors o1 data k1) = fst (Main.checkForErrors o2 data k2).
Proof.
  intros o1 o2 Hok1 Hok2 data k1 k2.
  destruct (flagged data) eqn:Hflag.
  - now rewrite (flagged_checkForErrors o1 Hok1 data Hflag k1),
      (flagged_checkForErrors o2 Hok2 data Hflag k2).
  - destruct (fst (Main.checkForErrors o1 data k1)) eqn:H1.
    + apply checkForErrors_flagged in H1. congruence.
    + destruct (fst (Main.checkForErrors o2 data k2)) eqn:H2; [|reflexivity].
      apply checkForErrors_flagged in H2. congruence.
Qed.

(* ================================================================== *)
(** ** More on the test runner *)

Section RunnerMore.

Variable fmtV : value -> string.
Variable Unmarshal : string -> option value.
Variable filepath_Base : string -> string.

Local Abbreviation validateSingleQuery :=
  (Cmd.validateSingleQuery fmtV Unmarshal filepath_Base).
Local Abbreviation rangeQueryFiles :=
  (Cmd.rangeQueryFiles fmtV Unmarshal filepath_Base).
Local Abbreviation validateQueries :=
  (Cmd.validateQueries fmtV Unmarshal filepath_Base).

(** The checks and the verdict leave [Path] as it is. *)
Lemma checks_keep_Path (w : Cmd.World) (res : option Cmd.Result.t)
    (err : option string) (result : Cmd.TestResult.t) :
  Cmd.TestResult.Path
    (Cmd.verdict
       (Cmd.checkData fmtV Unmarshal w res
          (Cmd.checkResponse res (Cmd.checkExecution err result)))) =
  Cmd.TestResult.Path result.
Proof.
  unfold Cmd.verdict, Cmd.checkData, Cmd.checkResponse, Cmd.checkExecution.
  destruct err, res as [res|]; cbn;
    repeat match goal with
           | |- context [if ?c then _ else _] => destruct c; cbn
           end; reflexivity.
Qed.

Lemma validateSingleQuery_Path (w : Cmd.World) (queryPath : string) :
  Cmd.TestResult.Path (validateSingleQuery w queryPath) = queryPath.
Proof.
  unfold Cmd.validateSingleQuery.
  destruct (Cmd.os_ReadFile w queryPath) as [query|err]; [|reflexivity].
  destruct (if Cmd.os_Stat w _ then _ else _) as [variables|err]; [|reflexivity].
  destruct (Cmd.gj_GraphQL w query variables) as [res err].
  now rewrite checks_keep_Path.
Qed.

(** The results of the loop: those of all the files, cut after the first
    failure under [failFast]. *)
Lemma rangeQueryFiles_Results (failFast : bool) (world : nat -> Cmd.World)
    (queryFiles : list string) :
  forall (k : nat) (summary : Cmd.ValidationSummary.t),
    Cmd.ValidationSummary.Results
      (rangeQueryFiles failFast world k queryFiles summary) =
    Cmd.ValidationSummary.Results summary ++
    (if failFast
     then throughFirstFailure
            (resultsFrom (fun i => validateSingleQuery (world i)) k queryFiles)
     else resultsFrom (fun i => validateSingleQuery (world i)) k queryFiles).
Proof.
  induction queryFiles as [|qf rest IH]; intros k summary.
  - cbn. destruct failFast; now rewrite app_nil_r.
  - cbn [Cmd.rangeQueryFiles resultsFrom throughFirstFailure].
    cbn [Cmd.ValidationSummary.Total Cmd.ValidationSummary.Passed
         Cmd.ValidationSummary.Failed Cmd.ValidationSummary.Results].
    destruct (Cmd.TestResult.Passed (validateSingleQuery (world k) qf)) eqn:Hp.
    + rewrite IH. cbn [Cmd.ValidationSummary.Results].
      rewrite <- app_assoc. cbn [app].
      now destruct failFast.
    + destruct failFast.
      * reflexivity.
      * rewrite IH. cbn [Cmd.ValidationSummary.Results].
        now rewrite <- app_assoc.
Qed.

Lemma resultsFrom_Path (world : nat -> Cmd.World) (queryFiles : list string) :
  forall k,
    map Cmd.TestResult.Path
      (resultsFrom (fun i => validateSingleQuery (world i)) k queryFiles) =
    queryFiles.
Proof.
  induction queryFiles as [|qf rest IH]; intros k; [reflexivity|].
  cbn [resultsFrom map]. now rewrite validateSingleQuery_Path, IH.
Qed.

Lemma throughFirstFailure_firstn (results : list Cmd.TestResult.t) :
  throughFirstFailure results =
  firstn (List.length (throughFirstFailure results)) results.
Proof.
  induction results as [|r l IH]; [reflexivity|].
  cbn [throughFirstFailure]. destruct (Cmd.TestResult.Passed r).
  - cbn [List.length firstn]. now rewrite <- IH.
  - reflexivity.
Qed.

Lemma throughFirstFailure_passed (results : list Cmd.TestResult.t) :
  forall (i : nat) (r : Cmd.TestResult.t),
    nth_error (throughFirstFailure results) i = Some r ->
    S i < List.length (throughFirstFailure results) ->
    Cmd.TestResult.Passed r = true.
Proof.
  induction results as [|r0 l IH]; intros i r Hnth Hlt; [now destruct i|].
  cbn [throughFirstFailure] in Hnth, Hlt.
  destruct (Cmd.TestResult.Passed r0) eqn:Hp.
  - destruct i as [|i].
    + injection Hnth as <-. exact Hp.
    + cbn [nth_error List.length] in Hnth, Hlt. apply (IH i r Hnth). lia.
  - cbn [List.length] in Hlt. lia.
Qed.

Lemma throughFirstFailure_stopped (results : list Cmd.TestResult.t) :
  List.length (throughFirstFailure results) < List.length results ->
  exists r,
    last (throughFirstFailure results) r = r /\
    In r (throughFirstFailure results) /\
    Cmd.TestResult.Passed r = false.
Proof.
  induction results as [|r0 l IH]; intros Hlt; [cbn in Hlt; lia|].
  cbn [throughFirstFailure] in *.
  destruct (Cmd.TestResult.Passed r0) eqn:Hp.
  - cbn [List.length] in Hlt.
    destruct IH as (r & Hlast & Hin & Hfailed); [lia|].
    exists r. split; [|split; [now right|exact Hfailed]].
    cbn [last]. destruct (throughFirstFailure l); [contradiction|exact Hlast].
  - exists r0. split; [reflexivity|split; [now left|exact Hp]].
Qed.

(** X9. The results of [validateQueries] follow the query files: the
    [i]-th result is the result of the [i]-th file.  Without [failFast]
    there is one result per file; with it, every result before the last
    passed, and when results are missing the last one failed. *)
Theorem X9_results_follow_the_files :
  forall (failFast : bool) (world : nat -> Cmd.World) (queryFiles : list string),
    map Cmd.TestResult.Path
      (Cmd.ValidationSummary.Results (validateQueries failFast world queryFiles)) =
      firstn
        (List.length
           (Cmd.ValidationSummary.Results (validateQueries failFast world queryFiles)))
        queryFiles /\
    (failFast = false ->
     List.length
       (Cmd.ValidationSummary.Results (validateQueries failFast world queryFiles)) =
     List.length queryFiles) /\
    (failFast = true ->
     (forall (i : nat) (r : Cmd.TestResult.t),
         nth_error
           (Cmd.ValidationSummary.Results (validateQueries failFast world queryFiles))
           i = Some r ->
         S i < List.length
                 (Cmd.ValidationSummary.Results
                    (validateQueries failFast world queryFiles)) ->
         Cmd.TestResult.Passed r = true) /\
     (List.length
        (Cmd.ValidationSummary.Results (validateQueries failFast world queryFiles))
        < List.length queryFiles ->
      exists r,
        In r (Cmd.ValidationSummary.Results
                (validateQueries failFast world queryFiles)) /\
        Cmd.TestResult.Passed r = false)).
Proof.
  intros failFast world queryFiles. unfold Cmd.validateQueries.
  rewrite rangeQueryFiles_Results. cbn [Cmd.ValidationSummary.Results app].
  set (all := resultsFrom (fun i => validateSingleQuery (world i)) 0 queryFiles).
  assert (Hpaths : map Cmd.TestResult.Path all = queryFiles)
    by apply resultsFrom_Path.
  assert (Hlen : List.length all = List.length queryFiles).
  { now rewrite <- Hpaths, length_map. }
  destruct failFast.
  - split; [|split; [discriminate|intros _; split]].
    + rewrite <- Hpaths, firstn_map. f_equal.
      apply throughFirstFailure_firstn.
    + apply throughFirstFailure_passed.
    + intros Hlt. rewrite <- Hlen in Hlt.
      destruct (throughFirstFailure_stopped all Hlt) as (r & _ & Hin & Hfailed).
      now exists r.
  - split; [|split; [intros _; exact Hlen|discriminate]].
    now rewrite Hpaths, Hlen, firstn_all.
Qed.

(** X7. When the query and its variables are read, the messages of the
    result are the execution error of the engine, then the errors of its
    response, then the errors nested in the data of the response, in this
    order; none of the three hides another. *)
Theorem X7_messages_of_the_three_kinds :
  forall (w : Cmd.World) (queryPath query variables : string)
         (res : option Cmd.Result.t) (err : option string),
    Cmd.os_ReadFile w queryPath = inl query ->
    (if Cmd.os_Stat w (Cmd.TrimSuffix queryPath ".graphql" +s+ ".json")
     then Cmd.os_ReadFile w (Cmd.TrimSuffix queryPath ".graphql" +s+ ".json")
     else inl "{}") = inl variables ->
    Cmd.gj_GraphQL w query variables = (res, err) ->
    Cmd.TestResult.Errors (validateSingleQuery w queryPath) =
      match err with
      | Some err => ["Execution error: " +s+ err]
      | None => []
      end ++
      match res with
      | Some res => map Cmd.Message (Cmd.Result.Errors res)
      | None => []
      end ++
      match res with
      | Some res =>
          if (0 <? Cmd.lenBytes (Cmd.Result.Data res))%Z
          then Cmd.findNestedErrors (Cmd.mapOrder w) fmtV Unmarshal (Cmd.Result.Data res)
          else []
      | None => []
      end.
Proof.
  intros w queryPath query variables res err Hquery Hvars Hrun.
  now apply (validateSingleQuery_errors fmtV Unmarshal filepath_Base w queryPath
               query variables res err).
Qed.

(** X8. A query file that cannot be read, and a variables file that exists
    and cannot be read, give a failed result with one message, and the engine
    is not called: the result is the same whatever the engine would answer. *)
Theorem X8_unreadable_files_fail_without_the_engine :
  forall (w w' : Cmd.World) (queryPath : string),
    (forall p, Cmd.os_ReadFile w p = Cmd.os_ReadFile w' p) ->
    (forall p, Cmd.os_Stat w p = Cmd.os_Stat w' p) ->
    Cmd.sinceStart w = Cmd.sinceStart w' ->
    (exists err, Cmd.os_ReadFile w queryPath = inr err) \/
    (Cmd.os_Stat w (Cmd.TrimSuffix queryPath ".graphql" +s+ ".json") = true /\
     exists err,
       Cmd.os_ReadFile w (Cmd.TrimSuffix queryPath ".graphql" +s+ ".json") = inr err) ->
    validateSingleQuery w queryPath = validateSingleQuery w' queryPath /\
    Cmd.TestResult.Passed (validateSingleQuery w queryPath) = false /\
    List.length (Cmd.TestResult.Errors (validateSingleQuery w queryPath)) = 1.
Proof.
  intros w w' queryPath Hread Hstat Hclock Hfail.
  unfold Cmd.validateSingleQuery.
  rewrite <- !Hread, <- !Hstat, <- Hclock.
  destruct Hfail as [(err & Herr)|(Hexists & err & Herr)].
  - rewrite Herr. now repeat split.
  - rewrite Hexists, Herr.
    destruct (Cmd.os_ReadFile w queryPath) as [query|err']; now repeat split.
Qed.

(** Facts on [strings.TrimSuffix]. *)
Lemma length_append (a b : string) :
  String.length (a +s+ b) = String.length a + String.length b.
Proof. induction a as [|c a IH]; cbn; [reflexivity|now rewrite IH]. Qed.

Lemma substring_whole (b : string) : substring 0 (String.length b) b = b.
Proof. induction b as [|c b IH]; cbn; [reflexivity|now rewrite IH]. Qed.

Lemma substring_after (a b : string) (m : nat) :
  substring (String.length a) m (a +s+ b) = substring 0 m b.
Proof. induction a as [|c a IH]; cbn; [reflexivity|exact IH]. Qed.

Lemma substring_before (a b : string) :
  substring 0 (String.length a) (a +s+ b) = a.
Proof.
  induction a as [|c a IH]; cbn; [now destruct b|now rewrite IH].
Qed.

Lemma TrimSuffix_append (base suffix : string) :
  Cmd.TrimSuffix (base +s+ suffix) suffix = base.
Proof.
  unfold Cmd.TrimSuffix, Cmd.HasSuffix. rewrite length_append.
  replace (String.length base + String.length suffix - String.length suffix)
    with (String.length base) by lia.
  rewrite substring_after, substring_whole, String.eqb_refl, substring_before.
  replace (String.length suffix <=? String.length base + String.length suffix)
    with true; [reflexivity|].
  symmetry. apply Nat.leb_le. lia.
Qed.

Lemma findNestedErrors_same_orders (o1 o2 : nat -> nat -> list nat) (data : string) :
  (forall k n, o1 k n = o2 k n) ->
  Cmd.findNestedErrors o1 fmtV Unmarshal data =
  Cmd.findNestedErrors o2 fmtV Unmarshal data.
Proof.
  intros Hsame. unfold Cmd.findNestedErrors.
  destruct (String.length data =? 0); [reflexivity|].
  destruct (Unmarshal data) as [result|]; [|reflexivity].
  now rewrite (collect_same_orders o1 o2 fmtV Hsame).
Qed.

(** X10. The variables of [<base>.graphql] are looked for in [<base>.json]:
    of the file system, the result of such a query depends on these two
    files only.  Two worlds that agree on them, on the engine, on the clock
    and on the orders of the runtime give the same result. *)
Theorem X10_variables_file_of_a_query :
  forall (w w' : Cmd.World) (base : string),
    Cmd.os_ReadFile w (base +s+ ".graphql") = Cmd.os_ReadFile w' (base +s+ ".graphql") ->
    Cmd.os_Stat w (base +s+ ".json") = Cmd.os_Stat w' (base +s+ ".json") ->
    Cmd.os_ReadFile w (base +s+ ".json") = Cmd.os_ReadFile w' (base +s+ ".json") ->
    (forall query variables,
        Cmd.gj_GraphQL w query variables = Cmd.gj_GraphQL w' query variables) ->
    Cmd.sinceStart w = Cmd.sinceStart w' ->
    (forall k n, Cmd.mapOrder w k n = Cmd.mapOrder w' k n) ->
    validateSingleQuery w (base +s+ ".graphql") =
    validateSingleQuery w' (base +s+ ".graphql").
Proof.
  intros w w' base Hquery Hstat Hvars Hengine Hclock Horder.
  unfold Cmd.validateSingleQuery.
  rewrite TrimSuffix_append, <- Hquery, <- Hstat, <- Hvars, <- Hclock.
  destruct (Cmd.os_ReadFile w (base +s+ ".graphql")) as [query|err];
    [|reflexivity].
  destruct (if Cmd.os_Stat w _ then _ else _) as [variables|err];
    [|reflexivity].
  rewrite <- Hengine.
  destruct (Cmd.gj_GraphQL w query variables) as [res err].
  f_equal. unfold Cmd.checkData. destruct res as [res|]; [|reflexivity].
  now rewrite (findNestedErrors_same_orders (Cmd.mapOrder w) (Cmd.mapOrder w')).
Qed.

(** X11. With the setup in order, [--file] goes before the directory: the
    directory is not scanned, a file that does not exist is an error, and a
    file that exists is the only one validated.  Without [--file], a
    directory with no query file ends the command with status 0. *)
Theorem X11_file_flag_and_empty_directory :
  forall (cfgFile queriesDir queryFile : string) (failFast : bool)
         (s : Cmd.Setup) (world : nat -> Cmd.World) (config : Cmd.Config),
    Cmd.LoadConfig s cfgFile = inl config ->
    Cmd.Validate config = None ->
    Cmd.initializeGraphJin s config = None ->
    (queryFile <> "" -> Cmd.notExist s queryFile = true ->
     Cmd.runValidate fmtV Unmarshal filepath_Base cfgFile queriesDir queryFile
       failFast s world = Some ("query file not found: " +s+ queryFile)) /\
    (queryFile <> "" -> Cmd.notExist s queryFile = false ->
     Cmd.runValidate fmtV Unmarshal filepath_Base cfgFile queriesDir queryFile
       failFast s world =
     Cmd.failedError (validateQueries failFast world [queryFile])) /\
    (queryFile = "" -> fst (Cmd.findQueryFiles s queriesDir) = [] ->
     snd (Cmd.findQueryFiles s queriesDir) = None ->
     Cmd.exitStatus
       (Cmd.Execute
          (Cmd.runValidate fmtV Unmarshal filepath_Base cfgFile queriesDir
             queryFile failFast s world)) = 0%Z).
Proof.
  intros cfgFile queriesDir queryFile failFast s world config Hload Hvalid Hinit.
  unfold Cmd.runValidate. rewrite Hload, Hvalid, Hinit.
  split; [|split].
  - intros Hfile Hmissing. apply String.eqb_neq in Hfile.
    now rewrite Hfile, Hmissing.
  - intros Hfile Hthere. apply String.eqb_neq in Hfile.
    now rewrite Hfile, Hthere.
  - intros -> Hnone Hok. cbn [String.eqb negb].
    destruct (Cmd.findQueryFiles s queriesDir) as [files err].
    cbn in Hnone, Hok. now subst.
Qed.

End RunnerMore.

(* ================================================================== *)
(** ** The runner and the summary of the stand-alone validator *)

Section MainRunner.

Variable Unmarshal : string -> option value.
Variable filepath_Base : string -> string.

Local Abbreviation testQuery := (Main.testQuery Unmarshal filepath_Base).

Lemma testQuery_result (w : Cmd.World) (queryFile : string) :
  (forall query variables, Cmd.gj_GraphQL w query variables <> (None, None)) ->
  exists result,
    testQuery w queryFile = Some result /\
    Main.Path result = queryFile /\
    (Main.Passed result = true <-> Main.Error result = "").
Proof.
  intros Hengine. unfold Main.testQuery.
  destruct (Cmd.os_ReadFile w queryFile) as [query|err].
  2: { eexists. split; [reflexivity|]. split; [reflexivity|].
       cbn. split; discriminate. }
  match goal with
  | |- context [Cmd.gj_GraphQL w query ?variables] =>
      specialize (Hengine query variables);
      destruct (Cmd.gj_GraphQL w query variables) as [[res|] [err|]]
  end.
  - eexists. split; [reflexivity|]. split; [reflexivity|].
    cbn. split; discriminate.
  - destruct (Main.hasNestedErrors _ _ _);
      (eexists; split; [reflexivity|]; split; [reflexivity|]);
      cbn; split; try discriminate; reflexivity.
  - eexists. split; [reflexivity|]. split; [reflexivity|].
    cbn. split; discriminate.
  - now contradiction Hengine.
Qed.

Lemma rangeTestQueries_results (world : nat -> Cmd.World)
    (queryFiles : list string) :
  (forall k query variables,
      Cmd.gj_GraphQL (world k) query variables <> (None, None)) ->
  forall (k : nat) (results : list Main.TestResult),
  exists added,
    Main.rangeTestQueries Unmarshal filepath_Base world k queryFiles results =
      Some (results ++ added) /\
    map Main.Path added = queryFiles /\
    (forall r, In r added -> (Main.Passed r = true <-> Main.Error r = "")).
Proof.
  intros Hengine. induction queryFiles as [|queryFile rest IH]; intros k results.
  - exists []. cbn. rewrite app_nil_r. now repeat split.
  - cbn [Main.rangeTestQueries].
    destruct (testQuery_result (world k) queryFile (Hengine k))
      as (result & -> & Hpath & Hiff).
    destruct (IH (S k) (results ++ [result])) as (added & -> & Hpaths & Hall).
    exists (result :: added). split; [now rewrite <- app_assoc|].
    split; [cbn; now rewrite Hpath, Hpaths|].
    intros r [<-|Hin]; [exact Hiff|now apply Hall].
Qed.

(** X14. When the engine never returns neither a result nor an error,
    [testQueries] returns one result per query file, in the order of the
    files, and a result passed exactly when its [Error] is empty.  A turn in
    which the engine returns neither, on a query that was read, panics. *)
Theorem X14_testQueries_results :
  (forall (world : nat -> Cmd.World) (queryFiles : list string),
      (forall k query variables,
          Cmd.gj_GraphQL (world k) query variables <> (None, None)) ->
      exists results,
        Main.testQueriesOn Unmarshal filepath_Base world queryFiles = Some results /\
        map Main.Path results = queryFiles /\
        (forall r, In r results ->
                   (Main.Passed r = true <-> Main.Error r = ""))) /\
  (forall (w : Cmd.World) (queryFile query : string),
      Cmd.os_ReadFile w queryFile = inl query ->
      (forall variables, Cmd.gj_GraphQL w query variables = (None, None)) ->
      testQuery w queryFile = None).
Proof.
  split.
  - intros world queryFiles Hengine.
    destruct (rangeTestQueries_results world queryFiles Hengine 0 [])
      as (added & Hrun & Hpaths & Hall).
    exists added. split; [exact Hrun|]. split; [exact Hpaths|exact Hall].
  - intros w queryFile query Hread Hnil. unfold Main.testQuery.
    now rewrite Hread, Hnil.
Qed.

End MainRunner.

Lemma tally_counts (results : list Main.TestResult) :
  forall passed failed : Z,
    (0 <= passed)%Z -> (0 <= failed)%Z ->
    (passed + failed + Cmd.len results <= Cmd.maxInt)%Z ->
    Main.tally results passed failed =
    ((passed + Cmd.len (filter Main.Passed results))%Z,
     (failed + Cmd.len (filter (fun r => negb (Main.Passed r)) results))%Z).
Proof.
  unfold Cmd.len.
  induction results as [|r l IH]; intros passed failed Hp Hf Hroom.
  - cbn. f_equal; lia.
  - cbn [Main.tally filter]. cbn [List.length] in Hroom.
    assert (Hall : List.length (filter Main.Passed l) +
                   List.length (filter (fun r => negb (Main.Passed r)) l) =
                   List.length l).
    { clear. induction l as [|r l IH]; [reflexivity|].
      cbn [filter]. destruct (Main.Passed r); cbn [negb List.length]; lia. }
    destruct (Main.Passed r); cbn [negb].
    + rewrite incr_small by (unfold Cmd.maxInt in *; lia).
      rewrite IH by lia. cbn [List.length]. f_equal; lia.
    + rewrite incr_small by (unfold Cmd.maxInt in *; lia).
      rewrite IH by lia. cbn [List.length]. f_equal; lia.
Qed.

(** X15. The summary [printResults] prints and the exit code of [main]
    agree: the two counters add up to the number of results, and the counter
    of failures is 0 exactly when the exit code is 0. *)
Theorem X15_summary_agrees_with_exit_code :
  forall results : list Main.TestResult,
    (Cmd.len results <= Cmd.maxInt)%Z ->
    (fst (Main.tally results 0 0) + snd (Main.tally results 0 0))%Z =
      Cmd.len results /\
    (snd (Main.tally results 0 0) = 0%Z <-> Main.exitCodeFrom results 0 = 0%Z) /\
    (0 < snd (Main.tally results 0 0) <-> Main.exitCodeFrom results 0 = 1%Z)%Z.
Proof.
  intros results Hroom.
  rewrite (tally_counts results 0 0) by lia. cbn [fst snd Z.add].
  assert (Hall : List.length (filter Main.Passed results) +
                 List.length (filter (fun r => negb (Main.Passed r)) results) =
                 List.length results).
  { clear. induction results as [|r l IH]; [reflexivity|].
    cbn [filter]. destruct (Main.Passed r); cbn [negb List.length]; lia. }
  split; [unfold Cmd.len; lia|].
  destruct (all_passed_or_one_failed results) as [Hpassed|Hfailed].
  - rewrite (exitCodeFrom_passed results Hpassed).
    assert (Hnone : filter (fun r => negb (Main.Passed r)) results = []).
    { destruct (filter (fun r => negb (Main.Passed r)) results) as [|r l]
        eqn:Hfilter; [reflexivity|].
      assert (Hr : In r (r :: l)) by now left.
      rewrite <- Hfilter in Hr. apply filter_In in Hr. destruct Hr as [Hin Hr].
      rewrite (Hpassed r Hin) in Hr. discriminate. }
    rewrite Hnone. cbn. split; split; intros H; try reflexivity; discriminate.
  - rewrite (exitCodeFrom_failed results Hfailed).
    destruct Hfailed as (r & Hin & Hr).
    assert (Hsome : In r (filter (fun r => negb (Main.Passed r)) results)).
    { apply filter_In. split; [exact Hin|now rewrite Hr]. }
    destruct (filter (fun r => negb (Main.Passed r)) results) as [|r0 l];
      [contradiction|].
    unfold Cmd.len. cbn [List.length].
    split; split; intros H; try reflexivity; try discriminate; lia.
Qed.

(* ================================================================== *)
(** ** The configuration file *)

Section ConfigFacts.

Variable os_ReadFile : string -> string + string.
Variable yaml_Unmarshal : string -> Cmd.Config + string.
Variable os_Getenv : string -> string.
Variable Sscanf_d : string -> option Z.

Local Abbreviation LoadConfig :=
  (CmdConfig.LoadConfig os_ReadFile yaml_Unmarshal os_Getenv Sscanf_d).

Lemma getEnv_set (key defaultValue : string) :
  os_Getenv key <> "" -> CmdConfig.getEnv os_Getenv key defaultValue = os_Getenv key.
Proof.
  intros Hset. unfold CmdConfig.getEnv.
  apply String.eqb_neq in Hset. now rewrite Hset.
Qed.


(** X12. The credentials can come from the environment alone: when the
    file is read and parsed, [DB_HOST], [DB_NAME] and [DB_USER] are set, and
    the port is not 0, be it the one [DB_PORT] parses to or, without
    [DB_PORT], the one of the file, [LoadConfig] returns a configuration
    that [Validate] accepts and that holds the values of the environment,
    whatever the file says of host, database and user. *)
Theorem X12_environment_credentials_are_enough :
  forall (configPath data : string) (config : Cmd.Config) (port : Z),
    os_ReadFile configPath = inl data ->
    yaml_Unmarshal data = inl config ->
    os_Getenv "DB_HOST" <> "" ->
    os_Getenv "DB_NAME" <> "" ->
    os_Getenv "DB_USER" <> "" ->
    (os_Getenv "DB_PORT" <> "" /\ Sscanf_d (os_Getenv "DB_PORT") = Some port) \/
    (os_Getenv "DB_PORT" = "" /\ Cmd.Port (Cmd.database config) = port) ->
    port <> 0%Z ->
    exists loaded,
      LoadConfig configPath = inl loaded /\
      Cmd.Validate loaded = None /\
      Cmd.Host (Cmd.database loaded) = os_Getenv "DB_HOST" /\
      Cmd.DBName (Cmd.database loaded) = os_Getenv "DB_NAME" /\
      Cmd.User (Cmd.database loaded) = os_Getenv "DB_USER" /\
      Cmd.Port (Cmd.database loaded) = port.
Proof.
  intros configPath data config port Hread Hparse Hhost Hname Huser Hport Hnz.
  unfold CmdConfig.LoadConfig. rewrite Hread, Hparse.
  eexists. split; [reflexivity|].
  rewrite !getEnv_set by assumption.
  assert (Hp : (if negb (os_Getenv "DB_PORT" =? "")%string
                then match Sscanf_d (os_Getenv "DB_PORT") with
                     | Some p => p
                     | None => Cmd.Port (Cmd.database config)
                     end
                else Cmd.Port (Cmd.database config)) = port).
  { destruct Hport as [[Hset Hscan]|[Hunset Hfile]].
    - apply String.eqb_neq in Hset. now rewrite Hset, Hscan.
    - now rewrite Hunset. }
  rewrite Hp. unfold Cmd.Validate. cbn.
  apply String.eqb_neq in Hhost, Hname, Huser. apply Z.eqb_neq in Hnz.
  now rewrite Hhost, Hname, Huser, Hnz.
Qed.


End ConfigFacts.

(* ================================================================== *)
(** ** The check command *)

Lemma substring_length (s : string) :
  forall n, n <= String.length s -> String.length (substring 0 n s) = n.
Proof.
  induction s as [|c s IH]; intros [|n] Hle; try reflexivity.
  - cbn in Hle. lia.
  - cbn. rewrite IH; [reflexivity|]. cbn in Hle. lia.
Qed.

(** X16. For a bound of at least 3, [truncateString] returns a string of
    at most [maxLen] bytes: [s] itself when it fits, and otherwise the first
    [maxLen - 3] bytes of [s] followed by three dots, [maxLen] bytes in all.
    For a bound from 0 to 2 and a longer string it panics. *)
Theorem X16_truncateString_bound :
  (forall (s : string) (maxLen : Z),
      (3 <= maxLen <= Cmd.maxInt)%Z ->
      exists r,
        CmdCheck.truncateString s maxLen = Some r /\
        Cmd.lenBytes r = Z.min (Cmd.lenBytes s) maxLen /\
        ((Cmd.lenBytes s <= maxLen)%Z -> r = s) /\
        ((maxLen < Cmd.lenBytes s)%Z ->
         r = substring 0 (Z.to_nat (maxLen - 3)) s +s+ "...")) /\
  (forall (s : string) (maxLen : Z),
      (0 <= maxLen < 3)%Z -> (maxLen < Cmd.lenBytes s)%Z ->
      CmdCheck.truncateString s maxLen = None).
Proof.
  split.
  - intros s maxLen Hbound. unfold CmdCheck.truncateString.
    destruct (Cmd.lenBytes s <=? maxLen)%Z eqn:Hfits.
    + apply Z.leb_le in Hfits. exists s.
      split; [reflexivity|]. split; [lia|]. split; [reflexivity|lia].
    + apply Z.leb_gt in Hfits.
      assert (Hhigh : Cmd.wrapInt (maxLen - 3) = (maxLen - 3)%Z).
      { unfold Cmd.wrapInt, Cmd.maxInt in *. rewrite Z.mod_small; lia. }
      rewrite Hhigh.
      replace ((0 <=? maxLen - 3) && (maxLen - 3 <=? Cmd.lenBytes s))%Z with true.
      2: { symmetry. apply andb_true_iff. split; apply Z.leb_le; lia. }
      eexists. split; [reflexivity|]. split; [|split; [lia|reflexivity]].
      unfold Cmd.lenBytes in *. rewrite length_append, substring_length by lia.
      cbn [String.length]. lia.
  - intros s maxLen Hbound Hlong. unfold CmdCheck.truncateString.
    replace (Cmd.lenBytes s <=? maxLen)%Z with false
      by (symmetry; apply Z.leb_gt; lia).
    assert (Hhigh : Cmd.wrapInt (maxLen - 3) = (maxLen - 3)%Z).
    { unfold Cmd.wrapInt. rewrite Z.mod_small; lia. }
    rewrite Hhigh.
    replace (0 <=? maxLen - 3)%Z with false; [reflexivity|].
    symmetry. apply Z.leb_gt. lia.
Qed.

(* ================================================================== *)
(** ** The init command *)

Section InitFacts.

Variable other : string -> bool.
Variable writeError : string -> option string.
Variable leftover : string -> option string.
Variable os_MkdirAll : string -> option string.
Variable filepath_Join : string -> string -> string.

Local Abbreviation found := (CmdInit.found other).
Local Abbreviation writeFileIfNotExists :=
  (CmdInit.writeFileIfNotExists other writeError leftover).
Local Abbreviation writeAll := (CmdInit.writeAll other writeError leftover).
Local Abbreviation runInit :=
  (CmdInit.runInit other writeError leftover os_MkdirAll filepath_Join).
Local Abbreviation projectFiles := (CmdInit.projectFiles filepath_Join).

(** [runInit] is the directory and then the writes of the project files. *)
Lemma runInit_writeAll (initDir : string) (overwrite : bool) (fs : CmdInit.files) :
  runInit initDir overwrite fs =
  match os_MkdirAll (filepath_Join initDir "queries") with
  | Some err => (fs, Some ("failed to create queries directory: " +s+ err))
  | None => writeAll overwrite (projectFiles initDir) fs
  end.
Proof.
  unfold CmdInit.runInit.
  destruct (os_MkdirAll (filepath_Join initDir "queries")); [reflexivity|].
  cbn [CmdInit.projectFiles CmdInit.writeAll]. unfold CmdInit.andThen.
  repeat match goal with
         | |- context [writeFileIfNotExists ?p ?c ?o ?f] =>
             destruct (writeFileIfNotExists p c o f) as [? [?|]];
             try reflexivity
         end.
Qed.

(** One call of [writeFileIfNotExists]. *)
Lemma write_skips (path content : string) (fs : CmdInit.files) :
  found fs path = true ->
  writeFileIfNotExists path content false fs = (fs, None).
Proof.
  intros Hfound. unfold CmdInit.writeFileIfNotExists. now rewrite Hfound.
Qed.

Lemma write_frame (path content : string) (overwrite : bool)
    (fs : CmdInit.files) (p : string) :
  p <> path ->
  fst (writeFileIfNotExists path content overwrite fs) p = fs p.
Proof.
  intros Hp. unfold CmdInit.writeFileIfNotExists, CmdInit.os_WriteFile.
  apply String.eqb_neq in Hp.
  destruct (found fs path && negb overwrite); [reflexivity|].
  destruct (writeError path); cbn; unfold CmdInit.put; now rewrite Hp.
Qed.

Lemma write_keeps (path content : string) (fs : CmdInit.files)
    (p c : string) :
  fs p = Some c ->
  fst (writeFileIfNotExists path content false fs) p = Some c.
Proof.
  intros Hp. destruct (found fs path) eqn:Hfound.
  - now rewrite write_skips.
  - rewrite write_frame; [exact Hp|].
    intros ->. unfold CmdInit.found in Hfound. now rewrite Hp in Hfound.
Qed.

Lemma write_done (path content : string) (overwrite : bool)
    (fs fs' : CmdInit.files) :
  writeFileIfNotExists path content overwrite fs = (fs', None) ->
  found fs' path = true /\
  (overwrite = true -> fs' path = Some content) /\
  (forall p, found fs p = true -> found fs' p = true).
Proof.
  unfold CmdInit.writeFileIfNotExists, CmdInit.os_WriteFile.
  destruct (found fs path && negb overwrite) eqn:Hskip.
  - intros [= <-]. apply andb_true_iff in Hskip. destruct Hskip as [Hfound Hnot].
    split; [exact Hfound|]. split; [|auto].
    intros ->. discriminate.
  - destruct (writeError path); [discriminate|]. intros [= <-].
    unfold CmdInit.found, CmdInit.put. rewrite String.eqb_refl.
    split; [reflexivity|]. split; [reflexivity|].
    intros p. destruct (p =? path)%string; [reflexivity|auto].
Qed.

(** The writes, one after the other. *)
Lemma writeAll_keeps (todo : list (string * string)) :
  forall (fs : CmdInit.files) (p c : string),
    fs p = Some c -> fst (writeAll false todo fs) p = Some c.
Proof.
  induction todo as [|[path content] rest IH]; intros fs p c Hp; [exact Hp|].
  cbn [CmdInit.writeAll]. unfold CmdInit.andThen.
  pose proof (write_keeps path content fs p c Hp) as Hkept.
  destruct (writeFileIfNotExists path content false fs) as [fs' [err|]];
    [exact Hkept|].
  now apply IH.
Qed.

Lemma writeAll_frame (overwrite : bool) (todo : list (string * string)) :
  forall (fs : CmdInit.files) (p : string),
    ~ In p (map fst todo) -> fst (writeAll overwrite todo fs) p = fs p.
Proof.
  induction todo as [|[path content] rest IH]; intros fs p Hp; [reflexivity|].
  cbn [CmdInit.writeAll]. unfold CmdInit.andThen.
  assert (Hne : p <> path) by (intros ->; apply Hp; now left).
  pose proof (write_frame path content overwrite fs p Hne) as Hsame.
  destruct (writeFileIfNotExists path content overwrite fs) as [fs' [err|]];
    [exact Hsame|].
  cbn [fst] in Hsame. rewrite IH; [exact Hsame|].
  intros Hin. apply Hp. now right.
Qed.

Lemma writeAll_done (overwrite : bool) (todo : list (string * string)) :
  forall fs fs' : CmdInit.files,
    writeAll overwrite todo fs = (fs', None) ->
    (forall p, found fs p = true -> found fs' p = true) /\
    (forall path content, In (path, content) todo -> found fs' path = true) /\
    (overwrite = true -> NoDup (map fst todo) ->
     forall path content, In (path, content) todo -> fs' path = Some content).
Proof.
  induction todo as [|[path content] rest IH]; intros fs fs' Hrun.
  - injection Hrun as <-. split; [auto|]. split; [intros ? ? []|intros _ _ ? ? []].
  - cbn [CmdInit.writeAll] in Hrun. unfold CmdInit.andThen in Hrun.
    destruct (writeFileIfNotExists path content overwrite fs) as [fs1 [err|]]
      eqn:Hfirst; [discriminate|].
    destruct (write_done path content overwrite fs fs1 Hfirst)
      as (Hthere & Hcontent & Hmono).
    destruct (IH fs1 fs' Hrun) as (Hmono' & Hall & Hcontents).
    split; [auto|]. split.
    + intros p c [[= <- <-]|Hin]; [now apply Hmono'|now apply (Hall p c)].
    + intros Hover Hdistinct p c Hin. cbn [map fst] in Hdistinct.
      apply NoDup_cons_iff in Hdistinct. destruct Hdistinct as [Hfresh Hrest].
      destruct Hin as [[= <- <-]|Hin].
      * pose proof (writeAll_frame overwrite rest fs1 path Hfresh) as Hsame.
        rewrite Hrun in Hsame. cbn [fst] in Hsame.
        rewrite Hsame. now apply Hcontent.
      * now apply (Hcontents Hover Hrest).
Qed.

Lemma writeAll_nothing (todo : list (string * string)) (fs : CmdInit.files) :
  (forall path content, In (path, content) todo -> found fs path = true) ->
  writeAll false todo fs = (fs, None).
Proof.
  induction todo as [|[path content] rest IH]; intros Hall; [reflexivity|].
  cbn [CmdInit.writeAll]. unfold CmdInit.andThen.
  rewrite write_skips by (apply (Hall path content); now left).
  apply IH. intros p c Hin. apply (Hall p c). now right.
Qed.

Lemma runInit_found (initDir : string) (overwrite : bool) (fs : CmdInit.files) :
  snd (runInit initDir overwrite fs) = None ->
  forall path content,
    In (path, content) (projectFiles initDir) ->
    found (fst (runInit initDir overwrite fs)) path = true.
Proof.
  rewrite runInit_writeAll.
  destruct (os_MkdirAll (filepath_Join initDir "queries")); [discriminate|].
  destruct (writeAll overwrite (projectFiles initDir) fs) as [fs' err] eqn:Hrun.
  cbn [fst snd]. intros ->.
  now destruct (writeAll_done overwrite (projectFiles initDir) fs fs' Hrun)
    as (_ & Hall & _).
Qed.

(** X17. Without [--overwrite], [runInit] never changes a file that is
    there: whatever it creates and wherever it fails, every file keeps the
    content it had. *)
Theorem X17_init_keeps_existing_files :
  forall (initDir : string) (fs : CmdInit.files) (p c : string),
    fs p = Some c ->
    fst (runInit initDir false fs) p = Some c.
Proof.
  intros initDir fs p c Hp. rewrite runInit_writeAll.
  destruct (os_MkdirAll (filepath_Join initDir "queries")); [exact Hp|].
  now apply writeAll_keeps.
Qed.

(** X18. When [runInit] returns no error, the six project files are there;
    with [--overwrite], and the six paths distinct, each of them holds its
    sample content. *)
Theorem X18_init_creates_the_project :
  forall (initDir : string) (overwrite : bool) (fs : CmdInit.files),
    snd (runInit initDir overwrite fs) = None ->
    (forall path content,
        In (path, content) (projectFiles initDir) ->
        found (fst (runInit initDir overwrite fs)) path = true) /\
    (overwrite = true ->
     NoDup (map fst (projectFiles initDir)) ->
     forall path content,
       In (path, content) (projectFiles initDir) ->
       fst (runInit initDir overwrite fs) path = Some content).
Proof.
  intros initDir overwrite fs. rewrite runInit_writeAll.
  destruct (os_MkdirAll (filepath_Join initDir "queries")); [discriminate|].
  destruct (writeAll overwrite (projectFiles initDir) fs) as [fs' err] eqn:Hrun.
  cbn [fst snd]. intros ->.
  destruct (writeAll_done overwrite (projectFiles initDir) fs fs' Hrun)
    as (_ & Hall & Hcontents).
  split; assumption.
Qed.

End InitFacts.

(** X19. After a run of [runInit] that returned no error, a second run
    without [--overwrite] changes no file, whatever the file system answers
    to its writes and whatever else appeared in between, and it fails only
    if the queries directory cannot be made. *)
Theorem X19_init_twice_changes_nothing :
  forall (other other' : string -> bool)
         (writeError writeError' leftover leftover' os_MkdirAll os_MkdirAll'
            : string -> option string)
         (filepath_Join : string -> string -> string)
         (initDir : string) (overwrite : bool) (fs : CmdInit.files),
    (forall p, other p = true -> other' p = true) ->
    snd (CmdInit.runInit other writeError leftover os_MkdirAll filepath_Join
           initDir overwrite fs) = None ->
    fst (CmdInit.runInit other' writeError' leftover' os_MkdirAll' filepath_Join
           initDir false
           (fst (CmdInit.runInit other writeError leftover os_MkdirAll
                   filepath_Join initDir overwrite fs))) =
      fst (CmdInit.runInit other writeError leftover os_MkdirAll filepath_Join
             initDir overwrite fs) /\
    (os_MkdirAll' (filepath_Join initDir "queries") = None ->
     snd (CmdInit.runInit other' writeError' leftover' os_MkdirAll' filepath_Join
            initDir false
            (fst (CmdInit.runInit other writeError leftover os_MkdirAll
                    filepath_Join initDir overwrite fs))) = None).
Proof.
  intros other other' writeError writeError' leftover leftover' os_MkdirAll
    os_MkdirAll' filepath_Join initDir overwrite fs Hmore Hok.
  pose proof (runInit_found other writeError leftover os_MkdirAll filepath_Join
                initDir overwrite fs Hok) as Hall.
  assert (Hall' : forall path content,
            In (path, content) (CmdInit.projectFiles filepath_Join initDir) ->
            CmdInit.found other'
              (fst (CmdInit.runInit other writeError leftover os_MkdirAll
                      filepath_Join initDir overwrite fs)) path = true).
  { intros path content Hin. specialize (Hall path content Hin).
    unfold CmdInit.found in *.
    destruct (fst (CmdInit.runInit other writeError leftover os_MkdirAll
                     filepath_Join initDir overwrite fs) path);
      [reflexivity|now apply Hmore]. }
  rewrite (runInit_writeAll other' writeError' leftover' os_MkdirAll').
  rewrite (writeAll_nothing other' writeError' leftover' _ _ Hall').
  destruct (os_MkdirAll' (filepath_Join initDir "queries")); split;
    try reflexivity; discriminate.
Qed.

(* ================================================================== *)
(** ** The query files of a directory and the list command *)

Lemma walkQueryFiles_acc (visits : list CmdFiles.Visit) :
  forall queryFiles : list string,
    CmdFiles.walkQueryFiles visits queryFiles =
    (queryFiles ++ map CmdFiles.path (filter isQueryFile (beforeError visits)),
     firstError visits).
Proof.
  induction visits as [|visit rest IH]; intros queryFiles.
  - cbn. now rewrite app_nil_r.
  - cbn [CmdFiles.walkQueryFiles beforeError firstError].
    destruct (CmdFiles.err visit) as [e|]; [cbn; now rewrite app_nil_r|].
    cbn [filter]. unfold isQueryFile at 1.
    destruct (negb _ && _); rewrite IH; [|reflexivity].
    cbn [map]. now rewrite <- app_assoc.
Qed.

Lemma beforeError_all (visits : list CmdFiles.Visit) :
  (forall visit, In visit visits -> CmdFiles.err visit = None) ->
  beforeError visits = visits /\ firstError visits = None.
Proof.
  induction visits as [|visit rest IH]; intros Hclean; [now split|].
  cbn [beforeError firstError].
  rewrite (Hclean visit (or_introl eq_refl)).
  destruct IH as [-> ->]; [|now split].
  intros v Hin. apply Hclean. now right.
Qed.

Lemma beforeError_In (visits : list CmdFiles.Visit) (visit : CmdFiles.Visit) :
  In visit (beforeError visits) ->
  In visit visits /\ CmdFiles.err visit = None.
Proof.
  induction visits as [|v rest IH]; intros Hin; [contradiction|].
  cbn [beforeError] in Hin. destruct (CmdFiles.err v) eqn:Herr; [contradiction|].
  destruct Hin as [<-|Hin]; [split; [now left|exact Herr]|].
  destruct (IH Hin) as [Hrest Hnone]. split; [now right|exact Hnone].
Qed.

Lemma firstError_In (visits : list CmdFiles.Visit) (e : string) :
  firstError visits = Some e ->
  exists visit, In visit visits /\ CmdFiles.err visit = Some e.
Proof.
  induction visits as [|v rest IH]; intros Hfirst; [discriminate|].
  cbn [firstError] in Hfirst. destruct (CmdFiles.err v) as [e'|] eqn:Herr.
  - injection Hfirst as ->. exists v. split; [now left|exact Herr].
  - destruct (IH Hfirst) as (visit & Hin & Hvisit).
    exists visit. split; [now right|exact Hvisit].
Qed.

(** X20. [findQueryFiles] returns paths the walk visited without error, of
    entries that are no directory and whose name ends in [.graphql].  When
    the walk meets no error, it returns all of them, in the order of the
    walk, and no error; an error it returns is one the walk met. *)
Theorem X20_findQueryFiles_result :
  forall (filepath_Walk : string -> list CmdFiles.Visit) (dir : string),
    (forall p,
        In p (fst (CmdFiles.findQueryFiles filepath_Walk dir)) ->
        exists visit,
          In visit (filepath_Walk dir) /\
          CmdFiles.path visit = p /\
          CmdFiles.err visit = None /\
          CmdFiles.IsDir (CmdFiles.info visit) = false /\
          Cmd.HasSuffix (CmdFiles.Name (CmdFiles.info visit)) ".graphql" = true) /\
    ((forall visit, In visit (filepath_Walk dir) -> CmdFiles.err visit = None) ->
     CmdFiles.findQueryFiles filepath_Walk dir =
     (map CmdFiles.path (filter isQueryFile (filepath_Walk dir)), None)) /\
    (forall e,
        snd (CmdFiles.findQueryFiles filepath_Walk dir) = Some e ->
        exists visit,
          In visit (filepath_Walk dir) /\ CmdFiles.err visit = Some e).
Proof.
  intros filepath_Walk dir. unfold CmdFiles.findQueryFiles.
  rewrite walkQueryFiles_acc. cbn [fst snd app].
  split; [|split].
  - intros p Hin. apply in_map_iff in Hin. destruct Hin as (visit & Hpath & Hin).
    apply filter_In in Hin. destruct Hin as [Hin Hquery].
    apply beforeError_In in Hin. destruct Hin as [Hin Hnone].
    unfold isQueryFile in Hquery. apply andb_true_iff in Hquery.
    destruct Hquery as [Hdir Hsuffix].
    exists visit. repeat split; try assumption.
    now destruct (CmdFiles.IsDir (CmdFiles.info visit)).
  - intros Hclean. now destruct (beforeError_all _ Hclean) as [-> ->].
  - apply firstError_In.
Qed.

Section ListFacts.

Variable TrimSpace : string -> string.
Variable os_Stat : string -> bool.
Variable os_ReadFile : string -> string + string.

Local Abbreviation walkQueries :=
  (CmdList.walkQueries TrimSpace os_Stat os_ReadFile).
Local Abbreviation firstDescription := (CmdList.firstDescription TrimSpace).
Local Abbreviation extractDescription := (CmdList.extractDescription TrimSpace).

(** A query as [runList] records it. *)
Definition recorded (q : CmdList.QueryInfo) : Prop :=
  Cmd.HasSuffix (CmdList.Name q) ".graphql" = true /\
  (CmdList.HasVars q = true ->
   os_Stat (CmdList.VarsFile q) = true /\
   CmdList.VarsFile q = Cmd.TrimSuffix (CmdList.Path q) ".graphql" +s+ ".json") /\
  (CmdList.HasVars q = false -> CmdList.VarsFile q = "").

Lemma walkQueries_agree (visits : list CmdFiles.Visit) :
  forall (queries : list CmdList.QueryInfo),
    Forall recorded queries ->
    map CmdList.Path (fst (walkQueries visits queries)) =
      fst (CmdFiles.walkQueryFiles visits (map CmdList.Path queries)) /\
    snd (walkQueries visits queries) =
      snd (CmdFiles.walkQueryFiles visits (map CmdList.Path queries)) /\
    Forall recorded (fst (walkQueries visits queries)).
Proof.
  induction visits as [|visit rest IH]; intros queries Hqueries.
  - cbn. now repeat split.
  - cbn [CmdList.walkQueries CmdFiles.walkQueryFiles].
    destruct (CmdFiles.err visit); [cbn; now repeat split|].
    destruct (negb (CmdFiles.IsDir (CmdFiles.info visit)) &&
              Cmd.HasSuffix (CmdFiles.Name (CmdFiles.info visit)) ".graphql")
      eqn:Hquery; [|now apply IH].
    match goal with
    | |- context [walkQueries rest (queries ++ [?q])] =>
        destruct (IH (queries ++ [q])) as (Hpaths & Herr & Hall)
    end.
    + apply Forall_app. split; [exact Hqueries|]. constructor; [|constructor].
      apply andb_true_iff in Hquery. destruct Hquery as [_ Hsuffix].
      unfold recorded. cbn. split; [exact Hsuffix|].
      destruct (os_Stat _) eqn:Hstat; split; try discriminate; auto.
    + rewrite map_app in Hpaths, Herr. cbn [map CmdList.Path] in Hpaths, Herr.
      now repeat split.
Qed.

(** X21. The list command and the validate command see the same query
    files: the paths [runList] records are the paths [findQueryFiles]
    returns for the same walk, in the same order, with the same error.  Each
    recorded query has a name that ends in [.graphql], and it has variables
    exactly when it names a variables file, which is then the path with
    [.json] for [.graphql], found by [os.Stat]. *)
Theorem X21_list_records_the_query_files :
  forall (filepath_Walk : string -> list CmdFiles.Visit) (dir : string),
    map CmdList.Path (fst (walkQueries (filepath_Walk dir) [])) =
      fst (CmdFiles.findQueryFiles filepath_Walk dir) /\
    snd (walkQueries (filepath_Walk dir) []) =
      snd (CmdFiles.findQueryFiles filepath_Walk dir) /\
    (forall q,
        In q (fst (walkQueries (filepath_Walk dir) [])) ->
        Cmd.HasSuffix (CmdList.Name q) ".graphql" = true /\
        (CmdList.HasVars q = true <-> CmdList.VarsFile q <> "") /\
        (CmdList.HasVars q = true ->
         os_Stat (CmdList.VarsFile q) = true /\
         CmdList.VarsFile q =
           Cmd.TrimSuffix (CmdList.Path q) ".graphql" +s+ ".json")).
Proof.
  intros filepath_Walk dir.
  destruct (walkQueries_agree (filepath_Walk dir) [] (Forall_nil _))
    as (Hpaths & Herr & Hall).
  split; [exact Hpaths|]. split; [exact Herr|].
  intros q Hin. rewrite Forall_forall in Hall.
  destruct (Hall q Hin) as (Hname & Hvars & Hnone).
  split; [exact Hname|]. split; [|exact Hvars].
  split.
  - intros Hhas. destruct (Hvars Hhas) as [_ ->].
    destruct (Cmd.TrimSuffix (CmdList.Path q) ".graphql"); discriminate.
  - intros Hfile. destruct (CmdList.HasVars q); [reflexivity|].
    now contradiction Hfile; apply Hnone.
Qed.

Lemma firstDescription_passes (skipped rest : list string) :
  Forall (passedOver TrimSpace) skipped ->
  firstDescription (skipped ++ rest) = firstDescription rest.
Proof.
  intros Hskipped. induction Hskipped as [|line l Hline _ IH]; [reflexivity|].
  cbn [app CmdList.firstDescription].
  destruct Hline as [[Hcomment Hblank]|[Hcomment Hempty]]; rewrite Hcomment.
  - now rewrite Hblank.
  - now rewrite Hempty.
Qed.

(** X22. [extractDescription] returns the text of the first comment line
    that has one, trimmed, when only blank lines and comments without text
    come before it; it returns the empty string when a line that is neither
    blank nor a comment comes first, and when the content has no other
    lines than those it passes over. *)
Theorem X22_extractDescription_first_comment :
  forall (content : string) (skipped : list string),
    Forall (passedOver TrimSpace) skipped ->
    (forall line rest,
        CmdList.splitLines content = skipped ++ line :: rest ->
        CmdList.HasPrefix (TrimSpace line) "#" = true ->
        TrimSpace (CmdList.TrimPrefix (TrimSpace line) "#") <> "" ->
        extractDescription content =
          TrimSpace (CmdList.TrimPrefix (TrimSpace line) "#")) /\
    (forall line rest,
        CmdList.splitLines content = skipped ++ line :: rest ->
        CmdList.HasPrefix (TrimSpace line) "#" = false ->
        TrimSpace line <> "" ->
        extractDescription content = "") /\
    (CmdList.splitLines content = skipped -> extractDescription content = "").
Proof.
  intros content skipped Hskipped. unfold CmdList.extractDescription.
  split; [|split].
  - intros line rest -> Hcomment Htext.
    rewrite firstDescription_passes by exact Hskipped.
    cbn [CmdList.firstDescription]. rewrite Hcomment.
    apply String.eqb_neq in Htext. now rewrite Htext.
  - intros line rest -> Hcomment Hline.
    rewrite firstDescription_passes by exact Hskipped.
    cbn [CmdList.firstDescription]. rewrite Hcomment.
    apply String.eqb_neq in Hline. now rewrite Hline.
  - intros ->. rewrite <- (app_nil_r skipped).
    now rewrite firstDescription_passes.
Qed.

End ListFacts.

(* ================================================================== *)
(** ** The further properties on closed inputs *)

Lemma X2_witness : String.prefix "Error at " "Error at a: x" = true.
Proof.
  apply (X2_messages_start_with_Error_at inOrder printV twoKeys 0 "").
  cbn. now left.
Defined.

Lemma X3_witness :
  In "Error at root: bad"
     (Cmd.errors
        (Cmd.collectErrors reversed printV (VMap [("error", VString "bad")])
           (Cmd.mkState [] 0) "")) /\
  In "Error at user: denied"
     (Cmd.errors
        (Cmd.collectErrors reversed printV
           (VMap [("error", VMap [("message", VString "denied")])])
           (Cmd.mkState [] 0) "user")) /\
  Cmd.checkErrorKey [("error", VBool true)] (Cmd.mkState [] 0) "" = Cmd.mkState [] 0.
Proof.
  destruct (X3_error_key_rule reversed printV) as (Hstring & Hmap & Hother).
  split; [|split].
  - apply (Hstring [("error", VString "bad")] "bad" (Cmd.mkState [] 0) "");
      [reflexivity|discriminate].
  - apply (Hmap [("error", VMap [("message", VString "denied")])]
             [("message", VString "denied")] "denied" (Cmd.mkState [] 0) "user");
      reflexivity.
  - apply (Hother [("error", VBool true)] (VBool true));
      [reflexivity|discriminate|discriminate].
Defined.

Lemma X5_witness :
  In "Error at a: x"
     (Cmd.errors (Cmd.collectErrors reversed printV twoKeys (Cmd.mkState [] 0) "")).
Proof.
  destruct (X5_nested_findings_are_reported reversed printV reversed_ok)
    as [Hmap _].
  apply (Hmap [("a", VMap [("error", VString "x")]);
               ("b", VMap [("error", VString "y")])]
           0 "a" (VMap [("error", VString "x")]) (Cmd.mkState [] 0) 0 "");
    [reflexivity|].
  cbn. now left.
Defined.

Lemma X6_witness :
  fst (Main.checkForErrors inOrder twoKeys 0) =
  fst (Main.checkForErrors reversed twoKeys 5).
Proof.
  apply (X6_checkForErrors_answer_is_stable inOrder reversed inOrder_ok reversed_ok).
Defined.

Lemma X7_witness :
  Cmd.TestResult.Errors
    (Cmd.validateSingleQuery printV decodeSamples baseOfName troubled "a.graphql") =
  ["Execution error: timeout"; "boom"; "Error at root: bad"].
Proof.
  rewrite (X7_messages_of_the_three_kinds printV decodeSamples baseOfName
             troubled "a.graphql" "{ users { id } }" "{}"
             (Some (Cmd.Result.mk [Cmd.mkError "boom"] badPayload))
             (Some "timeout") eq_refl eq_refl eq_refl).
  reflexivity.
Defined.

Lemma X8_witness :
  Cmd.validateSingleQuery printV decodeSamples baseOfName unreadable "a.graphql" =
    Cmd.validateSingleQuery printV decodeSamples baseOfName unreadableCalm "a.graphql" /\
  Cmd.TestResult.Passed
    (Cmd.validateSingleQuery printV decodeSamples baseOfName unreadable "a.graphql") =
    false /\
  List.length
    (Cmd.TestResult.Errors
       (Cmd.validateSingleQuery printV decodeSamples baseOfName unreadable
          "a.graphql")) = 1.
Proof.
  apply (X8_unreadable_files_fail_without_the_engine printV decodeSamples
           baseOfName unreadable unreadableCalm "a.graphql");
    try reflexivity.
  left. now exists "open: no such file or directory".
Defined.

Lemma X10_witness :
  Cmd.validateSingleQuery printV decodeSamples baseOfName troubled
    ("a" +s+ ".graphql") =
  Cmd.validateSingleQuery printV decodeSamples baseOfName troubledElsewhere
    ("a" +s+ ".graphql").
Proof.
  apply (X10_variables_file_of_a_query printV decodeSamples baseOfName
           troubled troubledElsewhere "a"); reflexivity.
Defined.

Lemma X11_witness :
  Cmd.runValidate printV decodeSamples baseOfName "config.yaml" "./queries"
    "a.graphql" false ready (fun _ => healthy) =
  Cmd.failedError
    (Cmd.validateQueries printV decodeSamples baseOfName false (fun _ => healthy)
       ["a.graphql"]).
Proof.
  destruct (X11_file_flag_and_empty_directory printV decodeSamples baseOfName
              "config.yaml" "./queries" "a.graphql" false ready
              (fun _ => healthy) aConfig eq_refl eq_refl eq_refl)
    as (_ & Hthere & _).
  apply Hthere; [discriminate|reflexivity].
Defined.

Lemma X12_witness :
  exists loaded,
    CmdConfig.LoadConfig (fun _ => inl "database: {}") (fun _ => inl blankConfig)
      credentials scanPort "config.yaml" = inl loaded /\
    Cmd.Validate loaded = None /\
    Cmd.Host (Cmd.database loaded) = "db.internal" /\
    Cmd.DBName (Cmd.database loaded) = "shop" /\
    Cmd.User (Cmd.database loaded) = "reader" /\
    Cmd.Port (Cmd.database loaded) = 6543%Z.
Proof.
  apply (X12_environment_credentials_are_enough (fun _ => inl "database: {}")
           (fun _ => inl blankConfig) credentials scanPort "config.yaml"
           "database: {}" blankConfig 6543);
    try reflexivity; try discriminate.
  left. split; [discriminate|reflexivity].
Defined.


Lemma X14_witness :
  exists results,
    Main.testQueriesOn decodeSamples baseOfName (fun _ => troubled)
      ["a.graphql"; "b.graphql"] = Some results /\
    map Main.Path results = ["a.graphql"; "b.graphql"] /\
    (forall r, In r results -> (Main.Passed r = true <-> Main.Error r = "")).
Proof.
  destruct (X14_testQueries_results decodeSamples baseOfName) as [Hresults _].
  apply Hresults. intros k query variables. discriminate.
Defined.

Lemma one_result_fits : (Cmd.len [failedResult] <= Cmd.maxInt)%Z.
Proof. unfold Cmd.len, Cmd.maxInt. cbn. lia. Defined.

Lemma X15_witness :
  (0 < snd (Main.tally [failedResult] 0 0) <->
   Main.exitCodeFrom [failedResult] 0 = 1%Z)%Z.
Proof.
  apply (X15_summary_agrees_with_exit_code [failedResult] one_result_fits).
Defined.

Lemma X16_witness :
  exists r,
    CmdCheck.truncateString "PostgreSQL 16.1" 8 = Some r /\
    Cmd.lenBytes r = Z.min (Cmd.lenBytes "PostgreSQL 16.1") 8 /\
    ((Cmd.lenBytes "PostgreSQL 16.1" <= 8)%Z -> r = "PostgreSQL 16.1") /\
    ((8 < Cmd.lenBytes "PostgreSQL 16.1")%Z ->
     r = substring 0 (Z.to_nat (8 - 3)) "PostgreSQL 16.1" +s+ "...").
Proof.
  destruct X16_truncateString_bound as [Hbound _].
  apply Hbound. unfold Cmd.maxInt. lia.
Defined.

Lemma X17_witness :
  fst (CmdInit.runInit nowhere noError noError noError joinPlain "proj" false
         ownConfig) "proj/config.yaml" = Some "production: true".
Proof.
  apply (X17_init_keeps_existing_files nowhere noError noError noError joinPlain
           "proj" ownConfig "proj/config.yaml" "production: true").
  reflexivity.
Defined.

Lemma project_paths_distinct :
  NoDup (map fst (CmdInit.projectFiles joinPlain "proj")).
Proof.
  cbn. repeat constructor; cbn; intuition discriminate.
Defined.

Lemma X18_witness :
  fst (CmdInit.runInit nowhere noError noError noError joinPlain "proj" true
         ownConfig) "proj/config.yaml" = Some CmdInit.sampleConfig.
Proof.
  destruct (X18_init_creates_the_project nowhere noError noError noError
              joinPlain "proj" true ownConfig eq_refl) as [_ Hcontents].
  apply (Hcontents eq_refl project_paths_distinct). cbn. now left.
Defined.

Lemma X19_witness :
  fst (CmdInit.runInit nowhere noError noError noError joinPlain "proj" false
         (fst (CmdInit.runInit nowhere noError noError noError joinPlain "proj"
                 false noFiles))) =
  fst (CmdInit.runInit nowhere noError noError noError joinPlain "proj" false
         noFiles).
Proof.
  apply (X19_init_twice_changes_nothing nowhere nowhere noError noError noError
           noError noError noError joinPlain "proj" false noFiles).
  - auto.
  - reflexivity.
Defined.

Lemma X22_witness :
  CmdList.extractDescription trimAscii CmdInit.sampleQuery =
  "Sample query to fetch all users".
Proof.
  destruct (X22_extractDescription_first_comment trimAscii CmdInit.sampleQuery []
              (Forall_nil _)) as [Hfirst _].
  rewrite (Hfirst "# Sample query to fetch all users"
             (tl (CmdList.splitLines CmdInit.sampleQuery)));
    [reflexivity|reflexivity|reflexivity|discriminate].
Defined.
